(** * next-tinacms-s3: the media handler of [src/handlers.ts]

    A shallow embedding of the request handler that lists, uploads and
    deletes media assets of an S3 bucket, and the properties of its
    specification.

    The sources hold the handler in two revisions that differ in two places
    of the List path: [src/handlers.ts], and a later copy of it that declares
    [let client : S3Client].  Both are embedded: a [SourceFile] argument
    selects the revision wherever the two differ.  The first draft that is
    appended to [src/handlers.ts] (a single PutObjectCommand, no guard on
    [Contents]) is superseded by both and is not embedded. *)

From stdpp Require Import base strings gmap list.
From Stdlib Require Import ZArith Lia.

Open Scope string_scope.

#[local] Arguments String.append !_ _ / : simpl nomatch.
#[local] Set Warnings "-register-all".

(** ** JavaScript strings

    A string is the sequence of its code units; [string] holds the ones below
    256, which covers every literal of the handler. *)

Module JsString.

(** [s.startsWith(p)]. *)
Fixpoint startsWith (p s : string) : bool :=
  match p, s with
  | EmptyString, _ => true
  | String a p', String b s' => if Ascii.eqb a b then startsWith p' s' else false
  | String _ _, EmptyString => false
  end.

(** [s.endsWith(p)]: [p] starts at position [length s - length p]. *)
Fixpoint endsWith (p s : string) : bool :=
  match s with
  | EmptyString => String.eqb p EmptyString
  | String _ s' => String.eqb p s || endsWith p s'
  end.

(** The first [n] code units of [s], and [s] without them. *)
Fixpoint take (n : nat) (s : string) : string :=
  match n, s with
  | S n', String c s' => String c (take n' s')
  | _, _ => EmptyString
  end.

Fixpoint drop (n : nat) (s : string) : string :=
  match n, s with
  | S n', String _ s' => drop n' s'
  | _, _ => s
  end.

(** [s.substring(from, to)]: both indices are clamped to [0 .. length s] and
    swapped when [from > to]. *)
Definition substring (s : string) (from to : Z) : string :=
  let len := Z.of_nat (String.length s) in
  let clamp i := Z.max 0 (Z.min i len) in
  let lo := Z.min (clamp from) (clamp to) in
  let hi := Z.max (clamp from) (clamp to) in
  take (Z.to_nat (hi - lo)) (drop (Z.to_nat lo) s).

(** [s.indexOf(sep)]: the first position where [sep] starts, [None] for the
    JavaScript answer -1. *)
Fixpoint indexOf (sep s : string) {struct s} : option nat :=
  if startsWith sep s then Some 0%nat
  else match s with
       | EmptyString => None
       | String _ s' => S <$> indexOf sep s'
       end.

(** [s.lastIndexOf(sep)], with JavaScript's -1 when [sep] does not occur. *)
Fixpoint lastIndexOf (sep s : string) : Z :=
  match s with
  | EmptyString => if startsWith sep EmptyString then 0 else -1
  | String _ s' =>
      let r := lastIndexOf sep s' in
      if (0 <=? r)%Z then (r + 1)%Z
      else if startsWith sep s then 0%Z else (-1)%Z
  end.

(** [s.split(sep)] for a non-empty separator and no limit, as ECMAScript
    defines it: look for [sep] from the current position, cut the piece before
    it, go on after it; what is left when [sep] is not found is the last piece.
    Every round consumes at least one code unit, so [length s] rounds are
    enough. *)
Fixpoint split_rounds (rounds : nat) (sep s : string) : list string :=
  match rounds with
  | O => [s]
  | S rounds' =>
      match indexOf sep s with
      | None => [s]
      | Some j => take j s :: split_rounds rounds' sep (drop (j + String.length sep) s)
      end
  end.

Definition split (sep s : string) : list string :=
  split_rounds (String.length s) sep s.

(** [s.replace(/^\//, '')]: one leading slash is removed. *)
Definition replace_leading_slash (s : string) : string :=
  if startsWith "/" s then drop 1 s else s.

(** [sep] occurs in [s] at position [i]. *)
Definition occursAt (sep : string) (i : nat) (s : string) : Prop :=
  exists a b, s = a +:+ sep +:+ b /\ String.length a = i.

Definition occurs (sep s : string) : Prop := exists i, occursAt sep i s.

End JsString.

Import JsString.

(** ** The URL transform *)

Definition marker : string := "/image/upload/".

Definition transformS3Image (url transformations : string) : string :=
  let parts := split marker url in
  match parts with
  | [p0; p1] => p0 +:+ marker +:+ transformations +:+ "/" +:+ p1
  | _ => url
  end.


(** ** JavaScript values

    The values that reach the handler: primitives, arrays and plain objects
    (an object is the list of the properties that can be read on it, in
    order).  Numbers are the integral ones. *)

Inductive JsValue :=
| JsUndefined
| JsNull
| JsBoolean (b : bool)
| JsNumber (n : Z)
| JsString (s : string)
| JsArray (items : list JsValue)
| JsObject (props : list (string * JsValue)).

(** The outcome of an evaluation that may throw, and of a promise that may
    reject. *)
Inductive Completion (A : Type) :=
| Normal (a : A)
| Throw (e : JsValue).

Arguments Normal {A} a.
Arguments Throw {A} e.

#[global] Instance Completion_ret : MRet Completion := fun A a => Normal a.
#[global] Instance Completion_bind : MBind Completion :=
  fun A B f m => match m with Normal a => f a | Throw e => Throw e end.

Definition typeof (v : JsValue) : string :=
  match v with
  | JsUndefined => "undefined"
  | JsNull => "object"
  | JsBoolean _ => "boolean"
  | JsNumber _ => "number"
  | JsString _ => "string"
  | JsArray _ | JsObject _ => "object"
  end.

(** Truthiness, as [if (v)], [!v] and [&&] test it. *)
Definition ToBoolean (v : JsValue) : bool :=
  match v with
  | JsUndefined | JsNull => false
  | JsBoolean b => b
  | JsNumber n => negb (n =? 0)%Z
  | JsString s => negb (String.eqb s "")
  | JsArray _ | JsObject _ => true
  end.

(** [v === s] for a string [s]. *)
Definition strict_equals_string (v : JsValue) (s : string) : bool :=
  match v with
  | JsString t => String.eqb t s
  | _ => false
  end.

Definition TypeError (message : string) : JsValue :=
  JsObject [("name", JsString "TypeError"); ("message", JsString message)].

Fixpoint assoc (name : string) (props : list (string * JsValue)) : option JsValue :=
  match props with
  | [] => None
  | (k, v) :: rest => if String.eqb k name then Some v else assoc name rest
  end.

(** What [v.name] reads when [v] is neither [undefined] nor [null].  The
    handler reads [message] and [error] this way; no boolean, number, string or
    array has a member of either name. *)
Definition prop (v : JsValue) (name : string) : JsValue :=
  match v with
  | JsObject props => default JsUndefined (assoc name props)
  | _ => JsUndefined
  end.

(** [v.name]: a TypeError on [undefined] and [null]. *)
Definition Get (v : JsValue) (name : string) : Completion JsValue :=
  match v with
  | JsUndefined | JsNull =>
      Throw (TypeError ("Cannot read properties of " +:+
                        (if v is JsNull then "null" else "undefined") +:+
                        " (reading '" +:+ name +:+ "')"))
  | _ => Normal (prop v name)
  end.

(** ** JSON, as [JSON.stringify] writes a value

    A property whose value is [undefined] is left out of an object; an
    [undefined] element of an array is written [null]. *)

Inductive Json :=
| JNull
| JBool (b : bool)
| JNum (n : Z)
| JStr (s : string)
| JArr (items : list Json)
| JObj (members : list (string * Json)).

Fixpoint JSON_stringify (v : JsValue) : option Json :=
  match v with
  | JsUndefined => None
  | JsNull => Some JNull
  | JsBoolean b => Some (JBool b)
  | JsNumber n => Some (JNum n)
  | JsString s => Some (JStr s)
  | JsArray items => Some (JArr ((fun x => default JNull (JSON_stringify x)) <$> items))
  | JsObject props =>
      Some (JObj (omap (fun p => pair p.1 <$> JSON_stringify p.2) props))
  end.

(** The member [name] of a JSON object. *)
Fixpoint json_assoc (name : string) (members : list (string * Json)) : option Json :=
  match members with
  | [] => None
  | (k, v) :: rest => if String.eqb k name then Some v else json_assoc name rest
  end.

Definition json_member (name : string) (j : Json) : option Json :=
  match j with
  | JObj members => json_assoc name members
  | _ => None
  end.

(** ** Error normalization *)

Definition findErrorMessage (e : JsValue) : Completion JsValue :=
  if String.eqb (typeof e) "string" then Normal e
  else
    message ← Get e "message";
    if ToBoolean message then Normal message
    else
      error ← Get e "error";
      if ToBoolean error then
        error_message ← Get error "message";
        if ToBoolean error_message then Normal error_message
        else Normal (JsString "an error occurred")
      else Normal (JsString "an error occurred").

(** ** Requests, configuration, responses *)

(** A value of [req.query]: a string, or an array of strings when the
    parameter is repeated or is a catch-all route segment. *)
Inductive QueryValue :=
| QString (s : string)
| QArray (segments : list string).

Definition QueryValue_js (q : QueryValue) : JsValue :=
  match q with
  | QString s => JsString s
  | QArray segments => JsArray (JsString <$> segments)
  end.

(** What multer's [single('file')] leaves on the request: [req.body.directory]
    and [req.file]. *)
Record MulterFile := { originalname : string; path : string }.

Record Multipart := { body_directory : option string; file : option MulterFile }.

Record NextApiRequest := {
  method : string;
  query : gmap string QueryValue;
  (** the outcome of [await upload(req, res)] on this request; [Throw] also
      stands for a request that multer leaves without a body *)
  multipart : Completion Multipart
}.

(** [req.query.name], [undefined] when the parameter is absent. *)
Definition query_param (req : NextApiRequest) (name : string) : JsValue :=
  from_option QueryValue_js JsUndefined (query req !! name).

Record S3Config := {
  endpoint : string;
  cdn_base_url : string;
  bucket : string;
  access_key : string;
  access_secret : string;
  region : string;
  (** the promise [authorized(req, res)] settles to *)
  authorized : NextApiRequest -> Completion bool
}.

(** How the handler finished the response, with the argument it passed. *)
Inductive Sent :=
| ByJson (body : JsValue)
| BySend (body : JsValue)
| ByEnd (chunk : JsValue).

Record NextApiResponse := { statusCode : Z; sent : option Sent }.

(** The JSON body that went out through [res.json]. *)
Definition responseBody (r : NextApiResponse) : option Json :=
  match sent r with
  | Some (ByJson body) => JSON_stringify body
  | _ => None
  end.

(** ** The storage client *)

(** The calls that reach the storage backend. *)
Inductive S3Call :=
| ListObjectsCommand (Bucket : string) (Prefix MaxKeys Marker : JsValue)
| DeleteObjectCommand (Bucket : string) (Key : JsValue)
| Upload (Bucket ACL Key Body : string).

Module S3.

(** An object descriptor of a listing; the service gives every listed object
    its key. *)
Record Object := { Key : string }.

Record ListObjectsCommandOutput := {
  Contents : option (list Object);
  NextMarker : option string
}.

(** The backend behind [client]: what each call settles to.  An upload also
    reports progress events before it settles. *)
Record Client := {
  list_objects : S3Call -> Completion ListObjectsCommandOutput;
  delete_object : S3Call -> Completion JsValue;
  upload_done : S3Call -> list JsValue * Completion JsValue
}.

End S3.

(** ** The world a handler call acts on *)

Record World := {
  res : NextApiResponse;
  (** calls issued to the storage backend, oldest first *)
  s3_calls : list S3Call;
  console : list JsValue
}.

Definition initial_world : World :=
  {| res := {| statusCode := 200; sent := None |}; s3_calls := []; console := [] |}.

(** A step of the handler: it may throw, and it changes the world. *)
Definition M (A : Type) : Type := World -> Completion A * World.

#[global] Instance M_ret : MRet M := fun A a w => (Normal a, w).
#[global] Instance M_bind : MBind M :=
  fun A B f m w =>
    match m w with
    | (Normal a, w') => f a w'
    | (Throw e, w') => (Throw e, w')
    end.

Definition lift {A} (c : Completion A) : M A := fun w => (c, w).

(** [try { body } catch (e) { handler }], and [promise.then(..).catch(handler)]. *)
Definition try_catch {A} (body : M A) (handler : JsValue -> M A) : M A :=
  fun w =>
    match body w with
    | (Normal a, w') => (Normal a, w')
    | (Throw e, w') => handler e w'
    end.

Definition res_status (code : Z) : M unit :=
  fun w => (Normal tt,
            {| res := {| statusCode := code; sent := sent (res w) |};
               s3_calls := s3_calls w; console := console w |}).

Definition res_finish (how : Sent) : M unit :=
  fun w => (Normal tt,
            {| res := {| statusCode := statusCode (res w); sent := Some how |};
               s3_calls := s3_calls w; console := console w |}).

Definition res_json (body : JsValue) : M unit := res_finish (ByJson body).
Definition res_send (body : JsValue) : M unit := res_finish (BySend body).

(** [res.end(chunk)], node's [ServerResponse.end].  A chunk that is given (a
    truthy value) has to be a string or a buffer, and the values here have no
    buffers: for any other chunk [end] throws a TypeError before it touches
    the response (node's message goes on with what it received).  With a
    string, or with no chunk, the response is ended. *)
Definition double_quote : string := String (Ascii.ascii_of_nat 34) EmptyString.

Definition res_end (chunk : JsValue) : M unit :=
  if ToBoolean chunk && negb (String.eqb (typeof chunk) "string") then
    lift (Throw (TypeError
                   ("The " +:+ double_quote +:+ "chunk" +:+ double_quote +:+
                    " argument must be of type string or an instance of Buffer or Uint8Array")))
  else res_finish (ByEnd chunk).

Definition console_log (v : JsValue) : M unit :=
  fun w => (Normal tt,
            {| res := res w; s3_calls := s3_calls w; console := console w ++ [v] |}).

(** The [httpUploadProgress] listener: [console.log] on every event. *)
Fixpoint log_each (events : list JsValue) : M unit :=
  match events with
  | [] => mret tt
  | v :: rest => console_log v;; log_each rest
  end.

Definition issue (call : S3Call) : M unit :=
  fun w => (Normal tt,
            {| res := res w; s3_calls := s3_calls w ++ [call]; console := console w |}).

(** ** Media items *)

Module Media.

Record t := {
  id : string;
  filename : string;
  directory : string;
  src : string;
  previewSrc : string;
  type : string
}.

Definition js (m : t) : JsValue :=
  JsObject [("id", JsString (id m)); ("filename", JsString (filename m));
            ("directory", JsString (directory m)); ("src", JsString (src m));
            ("previewSrc", JsString (previewSrc m)); ("type", JsString (type m))].

End Media.

(** What [new URL(input)] exposes to the handler. *)
Record URL := { href : string; pathname : string }.

(** The two revisions of the handler in the repository. *)
Inductive SourceFile :=
| handlers_ts        (** [src/handlers.ts], with [var client] *)
| handlers_ts_typed. (** the later copy, with [let client : S3Client] *)

(** The placeholder preview of a video, a small embedded PNG. *)
Definition video_placeholder : string :=
  "data:image/png;base64,iVBORw0KGgoAAAANSUhEUgAAASsAAACoCAMAAACPKT" +:+
  "hEAAAARVBMVEWqqqrMzMz///+5ubmnp6ekpKTn5+f39/erq6vt7e3JycnY2Nixsb" +:+
  "Hp6en7+/vBwcHh4eHS0tK1tbXx8fHc3Ny9vb3ExMRKCGhtAAAEdklEQVR4nO3d63" +:+
  "KbMBSFUTgIJEDcL+//qEV13TppBDvGntMO+5vpn9ZuyRpBZIHSpK5ShpVkJjEMKs" +:+
  "kShkYrPFrh0QqPVni0wqMVHq3waIVHKzxa4dEKj1Z4tMKjFR6t8GiFRys8WuHRCo" +:+
  "9WeLTCoxUerfBohUcrPFrh0QqPVni0wqMVHq3waIVHKzxa4dEKj1Z4tMKjFR6t8G" +:+
  "iFRys8WuHRCo9WeLTCoxUerfBohUcrPFrh0QqPVni0wqMVHq3waIWnbOW2X7efqp" +:+
  "Gb/LHb75j89w/duL9aMUWrm8G4rNVQz3PfF01R3muKouj7fp7rehjSdV2y0f/k0z" +:+
  "tcNSuXGLf2pZWP2XutfNXUp6OilpKVSYZAU/b1UHVh0Gx4+ae2Qee892OWdd1apc" +:+
  "NcBMJyUdPSsTKjlbLyJr9dj5K9L//PDwrKc7/MIrUWloqVyVqp7hfs770z940alo" +:+
  "qVs/L8mWQK6XSwNKxMvY2qZ9/sEt9O17HybXnmi83rE6PyTApWZjkxrML7R6Urlo" +:+
  "ZVKuf+VWeby1jNMp77C0r7okP5XhpWhT33wW7D9i86lm+lYTVFv4856Nwyw8mB+W" +:+
  "QKVs4WeeSPzOABLVNJ99IjAlOw8jLHQEwjw/F0fvtGmmpc3FWshqhVITJ1R1om05" +:+
  "k0KFiN8VERrET6oxNxlP4aVtuoiE5Fb1bSpvtDy7fFRawWWQ+sthMxi13+Q65VmY" +:+
  "wqWHXxdYLfViLzzqLWNnF/z7Htp2C1QlbSVnnsZoSxKisNClZVfJng0UqkjC2u0y" +:+
  "r5bCVSfz2wjD21qPNs/7aVFF+/7DJWKW41RF5Gq89WzRiZZhmdBSwFqwGzatfoFO" +:+
  "s646rC5lc7U3daJQ9W5bg/b4+u6rwzhc/O6+FnnDAN3Xsoxl3m82B3uM7gDkaNb/" +:+
  "trjCuT7axfNdvH5uXQYWe18J2prPVFV+rCuujugyC3lG4QqlhFV+qw9fYku8wasr" +:+
  "NlfOaEPOe4XfHWVx4QmsbzDPF7XljhxvVFxpVpzt5LrQU6VV+dzj36c7eN87M3rp" +:+
  "9Mw6qS5dxfME0vOpTvpXG92iZYp6aSStN2FSt3bgl4b+L/1pSegTzzYJ6ZWpXHZH" +:+
  "SsfGuxJ2K+fHevNKyUntleZRqf2y9iXLFN+3U25ujsBcgrkTozeZ6E/zL56NW3DU" +:+
  "5hU0DuB6vzuTmktcckK0VsU6fr8nOHiftrh8mH3SbOZ8uaDn14U3Tx6+1p7fMyJq" +:+
  "vLjzuUWjtNv7Z43WvKcrIPG5xsvwLLEO9Kb09cOKWSsavSoQ5b4opic5ls+2GLV2" +:+
  "uDX1PMYYtT5sK2FMU9hNr7Uh82Ju2dhOap3TsvTtvqf4pWeLTCoxUerfBohUcrPF" +:+
  "rh0QqPVni0wqMVHq3waIVHKzxa4dEKj1Z4tMKjFR6t8GiFRys8WuHRCo9WeLTCox" +:+
  "UerfBohUcrPFrh0QqPVni0wqMVHq3waIVHKzxa4dEKj1Z4tMKjFR6t8GiFRys8Wu" +:+
  "HRCo9WeLTCoxUerfBohUcrPFrh0QqPVni0gvsBO1Qk0wQ2QcwAAAAASUVORK5CYI" +:+
  "I=".

(** The two-character token [""] that the media manager sends for the root. *)
Definition empty_quotes : string :=
  String (Ascii.ascii_of_nat 34) (String (Ascii.ascii_of_nat 34) EmptyString).

(** ** The handler *)

Section Handler.

(** The module-level [client], standing for the storage service behind it, and
    node's URL parser ([Throw] for the TypeError of an input it rejects). *)
Variable client : S3.Client.
Variable URL_new : string -> Completion URL.

Definition S3ToTina (source : SourceFile) (config : S3Config) (file : S3.Object)
  : Completion Media.t :=
  let bucketUrl := "https://" +:+ cdn_base_url config +:+ "/" in
  let filename := S3.Key file in
  url ← URL_new (bucketUrl +:+ filename);
  let directory :=
    substring (pathname url) 0 (lastIndexOf "/" (pathname url)) in
  mret {| Media.id := S3.Key file;
          Media.filename := filename;
          Media.directory := directory;
          Media.src := href url;
          Media.previewSrc :=
            match source with
            | handlers_ts =>
                transformS3Image (href url) "w_125,h_125,c_fill,q_auto"
            | handlers_ts_typed =>
                if endsWith ".mp4" filename then video_placeholder
                else transformS3Image (href url) "w_125,h_125,c_fill,q_auto"
            end;
          Media.type := "file" |}.

(** [Contents.map(S3ToTina)]: the first projection that throws ends the map. *)
Fixpoint map_S3ToTina (source : SourceFile) (config : S3Config)
    (contents : list S3.Object) : Completion (list Media.t) :=
  match contents with
  | [] => mret []
  | file :: rest =>
      item ← S3ToTina source config file;
      items ← map_S3ToTina source config rest;
      mret (item :: items)
  end.

(** The command [listMedia] builds from the query. *)
Definition list_command (config : S3Config) (req : NextApiRequest) : S3Call :=
  let directory := query_param req "directory" in
  let limit := from_option QueryValue_js (JsNumber 500) (query req !! "limit") in
  let offset := query_param req "offset" in
  let useRootDirectory :=
    negb (ToBoolean directory)
    || strict_equals_string directory "/"
    || strict_equals_string directory empty_quotes in
  ListObjectsCommand (bucket config)
    (if useRootDirectory then JsString "" else directory) limit offset.

(** The [offset] of the answer: [response.next_cursor] in [src/handlers.ts],
    which is no member of a ListObjects output, [response.NextMarker] in the
    later revision. *)
Definition next_offset (source : SourceFile) (response : S3.ListObjectsCommandOutput)
  : JsValue :=
  match source with
  | handlers_ts => JsUndefined
  | handlers_ts_typed => from_option JsString JsUndefined (S3.NextMarker response)
  end.

Definition listMedia (source : SourceFile) (req : NextApiRequest) (config : S3Config)
  : M unit :=
  try_catch
    (let command := list_command config req in
     issue command;;
     response ← lift (S3.list_objects client command);
     files ← lift (match S3.Contents response with
                   | Some contents => map_S3ToTina source config contents
                   | None => mret []
                   end);
     let folders : list JsValue := [] in
     res_json (JsObject [("items", JsArray (folders ++ (Media.js <$> files)));
                         ("offset", next_offset source response)]))
    (fun e =>
       res_status 500;;
       message ← lift (findErrorMessage e);
       res_json (JsObject [("e", message)])).

Definition uploadMedia (req : NextApiRequest) (config : S3Config) : M unit :=
  form ← lift (multipart req);
  let directory := body_directory form in
  try_catch
    (d ← lift (match directory with
               | Some d => Normal d
               | None => Throw (TypeError
                           "Cannot read properties of undefined (reading 'replace')")
               end);
     f ← lift (match file form with
               | Some f => Normal f
               | None => Throw (TypeError
                           "Cannot read properties of undefined (reading 'originalname')")
               end);
     let params :=
       Upload (bucket config) "public-read"
              (replace_leading_slash d +:+ originalname f) (path f) in
     issue params;;
     let '(progress, done) := S3.upload_done client params in
     log_each progress;;
     upload_result ← lift done;
     res_json upload_result)
    (fun e => console_log e;; res_send (JsNumber 500)).

(** [const [, public_id] = media]: the second element of what [media]
    iterates over; [undefined] and [null] are not iterable. *)
Definition second_element (media : JsValue) : Completion JsValue :=
  match media with
  | JsArray items => Normal (default JsUndefined (items !! 1%nat))
  | JsString s =>
      Normal (match String.get 1 s with
              | Some c => JsString (String c "")
              | None => JsUndefined
              end)
  | _ => Throw (TypeError "media is not iterable")
  end.

Definition deleteAsset (req : NextApiRequest) (config : S3Config) : M unit :=
  let media := query_param req "media" in
  public_id ← lift (second_element media);
  let command := DeleteObjectCommand (bucket config) public_id in
  try_catch
    (issue command;;
     data ← lift (S3.delete_object client command);
     res_json (JsObject [("undefined", JsUndefined); ("public_id", public_id)]))
    (fun error => res_status 500).

Definition createMediaHandler (source : SourceFile) (config : S3Config)
    (req : NextApiRequest) : M unit :=
  isAuthorized ← lift (authorized config req);
  if negb isAuthorized then
    res_status 401;;
    res_json (JsObject [("message", JsString "sorry this user is not authorized")])
  else if String.eqb (method req) "GET" then listMedia source req config
  else if String.eqb (method req) "POST" then uploadMedia req config
  else if String.eqb (method req) "DELETE" then deleteAsset req config
  else res_end (JsNumber 404).

(** One call of the handler on a fresh response: the world it leaves. *)
Definition handle (source : SourceFile) (config : S3Config) (req : NextApiRequest)
  : World :=
  (createMediaHandler source config req initial_world).2.

End Handler.

(** ** A URL parser for the worked examples

    node's parser on the plain URLs the examples use: [https://], a host of
    lower-case letters and dots that starts with a letter, then a path of
    letters, digits, [.], [-], [_] and [/] in which no segment starts with a
    dot.  Such an input is its own serialization and its path is what follows
    the host.  Every other input is refused here, which is less than node
    accepts; the general statements below hold for any parser. *)

Definition is_lower (c : Ascii.ascii) : bool :=
  let n := Ascii.nat_of_ascii c in (97 <=? n)%nat && (n <=? 122)%nat.

Definition is_plain_path_char (c : Ascii.ascii) : bool :=
  let n := Ascii.nat_of_ascii c in
  is_lower c
  || ((65 <=? n)%nat && (n <=? 90)%nat)
  || ((48 <=? n)%nat && (n <=? 57)%nat)
  || (n =? 45)%nat || (n =? 46)%nat || (n =? 47)%nat || (n =? 95)%nat.

Fixpoint all_chars (p : Ascii.ascii -> bool) (s : string) : bool :=
  match s with
  | EmptyString => true
  | String c s' => p c && all_chars p s'
  end.

Definition plain_URL (input : string) : Completion URL :=
  let invalid := Throw (TypeError "Invalid URL") in
  if startsWith "https://" input then
    let rest := drop 8 input in
    match indexOf "/" rest with
    | Some j =>
        let host := take j rest in
        let path := drop j rest in
        if match host with String c _ => is_lower c | EmptyString => false end
           && all_chars (fun c => is_lower c || (Ascii.nat_of_ascii c =? 46)%nat) host
           && all_chars is_plain_path_char path
           && negb (bool_decide (is_Some (indexOf "/." path)))
        then Normal {| href := input; pathname := path |}
        else invalid
    | None => invalid
    end
  else invalid.

(** ** Observations on a finished call *)

(** The prefix of the listing call, when a listing call is all that was issued. *)
Definition listing_prefix (calls : list S3Call) : option JsValue :=
  match calls with
  | [ListObjectsCommand _ prefix _ _] => Some prefix
  | _ => None
  end.

(** A media item as it is written into a JSON body. *)
Definition Media_json (m : Media.t) : Json :=
  JObj [("id", JStr (Media.id m)); ("filename", JStr (Media.filename m));
        ("directory", JStr (Media.directory m)); ("src", JStr (Media.src m));
        ("previewSrc", JStr (Media.previewSrc m)); ("type", JStr (Media.type m))].

(** The final segment of a path: what follows its last separator. *)
Definition last_segment (p : string) : string :=
  substring p (lastIndexOf "/" p + 1) (Z.of_nat (String.length p)).

(** [sep] occurs in [s] at two different positions. *)
Definition occurs_more_than_once (sep s : string) : Prop :=
  exists i j, i <> j /\ occursAt sep i s /\ occursAt sep j s.

(** ** Worked examples: a configuration, a backend, requests *)

Module Example.

Definition config (allow : bool) : S3Config :=
  {| endpoint := "https://s3.example.com";
     cdn_base_url := "cdn.example.com";
     bucket := "media";
     access_key := "AKIAEXAMPLE";
     access_secret := "secret";
     region := "eu-central-1";
     authorized := fun _ => Normal allow |}.

Definition client (listing : Completion S3.ListObjectsCommandOutput)
    (deletion upload : Completion JsValue) : S3.Client :=
  {| S3.list_objects := fun _ => listing;
     S3.delete_object := fun _ => deletion;
     S3.upload_done := fun _ => ([], upload) |}.

Definition no_form : Completion Multipart :=
  Normal {| body_directory := None; file := None |}.

Definition request (verb : string) (params : gmap string QueryValue) : NextApiRequest :=
  {| method := verb; query := params; multipart := no_form |}.

Definition post (directory filename : string) : NextApiRequest :=
  {| method := "POST"; query := ∅;
     multipart := Normal {| body_directory := Some directory;
                            file := Some {| originalname := filename;
                                            path := "/tmp/" +:+ filename |} |} |}.

(** A truncated listing: one object and the marker to go on from. *)
Definition truncated_listing : S3.ListObjectsCommandOutput :=
  {| S3.Contents := Some [ {| S3.Key := "assets/cat.png" |} ];
     S3.NextMarker := Some "assets/cat.png" |}.

Definition empty_listing : S3.ListObjectsCommandOutput :=
  {| S3.Contents := None; S3.NextMarker := None |}.

(** The object of the truncated listing, its public URL and its item in
    [src/handlers.ts]. *)
Definition cat : S3.Object := {| S3.Key := "assets/cat.png" |}.

Definition cat_url : URL :=
  {| href := "https://cdn.example.com/assets/cat.png";
     pathname := "/assets/cat.png" |}.

Definition cat_item : Media.t :=
  {| Media.id := "assets/cat.png";
     Media.filename := "assets/cat.png";
     Media.directory := "/assets";
     Media.src := "https://cdn.example.com/assets/cat.png";
     Media.previewSrc := "https://cdn.example.com/assets/cat.png";
     Media.type := "file" |}.

(** A URL in which the marker occurs twice, the second time starting on the
    last slash of the first. *)
Definition overlapping_url : string :=
  "https://cdn.example.com/image/upload/image/upload/cat.png".

Definition ok : Completion JsValue := Normal (JsObject []).

Definition failure : Completion JsValue :=
  Throw (JsObject [("name", JsString "NoSuchBucket");
                   ("message", JsString "The specified bucket does not exist")]).

End Example.

(** ** Proof automation *)

(** Unfolds one call of the handler down to the world it leaves. *)
Ltac run_handler :=
  unfold handle, createMediaHandler, listMedia, uploadMedia, deleteAsset,
    try_catch, lift, issue, res_json, res_send, res_end, res_finish, res_status,
    console_log, mbind, mret, M_bind, M_ret, initial_world; simpl.

(** ** Further observations on a handler call *)

(** What the promise of one handler call on a fresh response settles to. *)
Definition outcome (client : S3.Client) (URL_new : string -> Completion URL)
    (source : SourceFile) (config : S3Config) (req : NextApiRequest)
  : Completion unit :=
  (createMediaHandler client URL_new source config req initial_world).1.

(** What the [try] block of [listMedia] gets hold of: the answer of the
    listing and the projection of its contents, or the first throw. *)
Definition list_attempt (client : S3.Client) (URL_new : string -> Completion URL)
    (source : SourceFile) (config : S3Config) (req : NextApiRequest)
  : Completion (S3.ListObjectsCommandOutput * list Media.t) :=
  response ← S3.list_objects client (list_command config req);
  files ← match S3.Contents response with
          | Some contents => map_S3ToTina URL_new source config contents
          | None => mret []
          end;
  mret (response, files).

(** The method whose operation issues a call of this kind. *)
Definition call_method (call : S3Call) : string :=
  match call with
  | ListObjectsCommand _ _ _ _ => "GET"
  | Upload _ _ _ _ => "POST"
  | DeleteObjectCommand _ _ => "DELETE"
  end.

(** The page size and the cursor of the listing call, and the key of the
    delete call, when that call is all that was issued. *)
Definition listing_max_keys (calls : list S3Call) : option JsValue :=
  match calls with
  | [ListObjectsCommand _ _ max_keys _] => Some max_keys
  | _ => None
  end.

Definition listing_marker (calls : list S3Call) : option JsValue :=
  match calls with
  | [ListObjectsCommand _ _ _ marker] => Some marker
  | _ => None
  end.

Definition deleted_key (calls : list S3Call) : option JsValue :=
  match calls with
  | [DeleteObjectCommand _ key] => Some key
  | _ => None
  end.

(** [undefined] and [null], on which a property read throws. *)
Definition nullish (v : JsValue) : Prop := v = JsUndefined \/ v = JsNull.

(** ** More worked examples *)

Module Scenario.

(** A configuration whose CDN host has a space in it: no URL built from it
    parses. *)
Definition misconfigured : S3Config :=
  {| endpoint := "https://s3.example.com";
     cdn_base_url := "cdn example.com";
     bucket := "media";
     access_key := "AKIAEXAMPLE";
     access_secret := "secret";
     region := "eu-central-1";
     authorized := fun _ => Normal true |}.

(** A configuration whose authorization callback rejects. *)
Definition session_lookup_fails : S3Config :=
  {| endpoint := "https://s3.example.com";
     cdn_base_url := "cdn.example.com";
     bucket := "media";
     access_key := "AKIAEXAMPLE";
     access_secret := "secret";
     region := "eu-central-1";
     authorized := fun _ => Throw (JsString "session store down") |}.

(** What the backend of [Example.failure] throws. *)
Definition no_such_bucket : JsValue :=
  JsObject [("name", JsString "NoSuchBucket");
            ("message", JsString "The specified bucket does not exist")].

Definition multer_error : JsValue :=
  JsObject [("name", JsString "MulterError");
            ("message", JsString "Unexpected field")].

Definition progress : list JsValue :=
  [JsObject [("loaded", JsNumber 5); ("total", JsNumber 10)];
   JsObject [("loaded", JsNumber 10); ("total", JsNumber 10)]].

(** A backend whose upload reports two progress events and then settles. *)
Definition uploading (done : Completion JsValue) : S3.Client :=
  {| S3.list_objects := fun _ => Normal Example.empty_listing;
     S3.delete_object := fun _ => Example.ok;
     S3.upload_done := fun _ => (progress, done) |}.

Definition uploaded : JsValue :=
  JsObject [("Key", JsString "assets/cat.png"); ("Bucket", JsString "media")].

(** What the S3 client rejects a command with when it carries no key; it
    does so before any request is made. *)
Definition no_key : JsValue :=
  JsObject [("name", JsString "Error");
            ("message", JsString "No value provided for input HTTP label: Key.")].

(** A client that refuses a delete command without a key and deletes any
    other object. *)
Definition validating : S3.Client :=
  {| S3.list_objects := fun _ => Normal Example.empty_listing;
     S3.delete_object :=
       fun call =>
         match call with
         | DeleteObjectCommand _ JsUndefined => Throw no_key
         | _ => Example.ok
         end;
     S3.upload_done := fun _ => ([], Example.ok) |}.

(** A backend whose listing settles as given. *)
Definition listing (answer : Completion S3.ListObjectsCommandOutput) : S3.Client :=
  Example.client answer Example.ok Example.ok.

Definition two_objects : S3.ListObjectsCommandOutput :=
  {| S3.Contents := Some [ {| S3.Key := "assets/cat.png" |};
                           {| S3.Key := "clips/intro.mp4" |} ];
     S3.NextMarker := None |}.

Definition intro_url : URL :=
  {| href := "https://cdn.example.com/clips/intro.mp4";
     pathname := "/clips/intro.mp4" |}.

Definition intro : S3.Object := {| S3.Key := "clips/intro.mp4" |}.

(** The item of the video in [src/handlers.ts], where it has no placeholder. *)
Definition intro_item : Media.t :=
  {| Media.id := "clips/intro.mp4";
     Media.filename := "clips/intro.mp4";
     Media.directory := "/clips";
     Media.src := "https://cdn.example.com/clips/intro.mp4";
     Media.previewSrc := "https://cdn.example.com/clips/intro.mp4";
     Media.type := "file" |}.

(** A multipart request with no [directory] field. *)
Definition post_without_directory : NextApiRequest :=
  {| method := "POST"; query := ∅;
     multipart := Normal {| body_directory := None;
                            file := Some {| originalname := "cat.png";
                                            path := "/tmp/cat.png" |} |} |}.

(** A request that multer fails on. *)
Definition post_multer_fails : NextApiRequest :=
  {| method := "POST"; query := ∅;
     multipart := Throw multer_error |}.

End Scenario.
(** ** Facts about the string operations *)

Section StringFacts.

Implicit Types (s p sep a b : string) (i j n : nat).

Lemma app_empty_r s : s +:+ "" = s.
Proof. induction s as [|c s IH]; simpl; [done | by rewrite IH]. Qed.

Lemma app_assoc_str a b s : (a +:+ b) +:+ s = a +:+ (b +:+ s).
Proof. induction a as [|c a IH]; simpl; [done | by rewrite IH]. Qed.

Lemma length_app_str a b :
  String.length (a +:+ b) = (String.length a + String.length b)%nat.
Proof. induction a as [|c a IH]; simpl; [done | by rewrite IH]. Qed.

Lemma startsWith_app p s : startsWith p (p +:+ s) = true.
Proof.
  induction p as [|c p IH]; simpl; [done |].
  by rewrite Ascii.eqb_refl.
Qed.

Lemma startsWith_inv p s : startsWith p s = true -> exists r, s = p +:+ r.
Proof.
  revert s; induction p as [|c p IH]; intros s H; simpl in *.
  - by exists s.
  - destruct s as [|d s]; [done |].
    destruct (Ascii.eqb_spec c d) as [->|]; [| done].
    destruct (IH _ H) as [r ->]. by exists r.
Qed.

Lemma take_app a s : take (String.length a) (a +:+ s) = a.
Proof. induction a as [|c a IH]; simpl; [by destruct s | by rewrite IH]. Qed.

Lemma drop_app a s : drop (String.length a) (a +:+ s) = s.
Proof. induction a as [|c a IH]; simpl; [done | by rewrite IH]. Qed.

Lemma take_drop n s : take n s +:+ drop n s = s.
Proof.
  revert s; induction n as [|n IH]; intros [|c s]; simpl; try done.
  by rewrite IH.
Qed.

Lemma length_take n s : (n <= String.length s)%nat -> String.length (take n s) = n.
Proof.
  revert s; induction n as [|n IH]; intros [|c s]; simpl; try done; try lia.
  intros H. rewrite IH; lia.
Qed.

Lemma length_drop n s : String.length (drop n s) = (String.length s - n)%nat.
Proof.
  revert s; induction n as [|n IH]; intros [|c s]; simpl; try done; lia.
Qed.

Lemma drop_add n m s : drop (n + m) s = drop m (drop n s).
Proof.
  revert s; induction n as [|n IH]; intros s; simpl; [done |].
  destruct s as [|c s]; [by destruct m | apply IH].
Qed.

Lemma occursAt_length sep i s :
  occursAt sep i s -> (i + String.length sep <= String.length s)%nat.
Proof.
  intros (a & b & -> & <-). rewrite !length_app_str. lia.
Qed.

Lemma occursAt_0 sep s : occursAt sep 0 s <-> startsWith sep s = true.
Proof.
  split.
  - intros (a & b & -> & Ha). destruct a; [| done]. simpl. apply startsWith_app.
  - intros [r ->]%startsWith_inv. by exists "", r.
Qed.

Lemma occursAt_S sep i c s : occursAt sep (S i) (String c s) <-> occursAt sep i s.
Proof.
  split.
  - intros (a & b & E & Ha). destruct a as [|d a]; [done |].
    simpl in *. injection E as -> ->. exists a, b. split; [done | lia].
  - intros (a & b & -> & <-). by exists (String c a), b.
Qed.

Lemma occursAt_drop sep n i s :
  (n <= String.length s)%nat ->
  occursAt sep i (drop n s) <-> occursAt sep (n + i) s.
Proof.
  revert s; induction n as [|n IH]; intros s Hn; simpl.
  - by destruct s.
  - destruct s as [|c s]; simpl in *; [lia |].
    rewrite occursAt_S. apply IH. lia.
Qed.

(** [indexOf] finds the first occurrence, and finds one when there is one. *)
Lemma indexOf_None sep s : indexOf sep s = None <-> ~ occurs sep s.
Proof.
  induction s as [|c s IH]; simpl.
  - destruct (startsWith sep "") eqn:E.
    + split; [done |]. intros H. destruct H. exists 0%nat. by apply occursAt_0.
    + split; [| done]. intros _ [i Hi].
      pose proof (occursAt_length _ _ _ Hi) as Hl. simpl in Hl.
      assert (i = 0)%nat as -> by lia. apply occursAt_0 in Hi. congruence.
  - destruct (startsWith sep (String c s)) eqn:E.
    + split; [done |]. intros H. destruct H. exists 0%nat. by apply occursAt_0.
    + rewrite fmap_None, IH. split.
      * intros H [[|i] Hi]; [apply occursAt_0 in Hi; congruence |].
        apply H. exists i. by apply occursAt_S in Hi.
      * intros H [i Hi]. apply H. exists (S i). by apply occursAt_S.
Qed.

Lemma indexOf_Some sep s j :
  indexOf sep s = Some j ->
  occursAt sep j s /\ forall i, occursAt sep i s -> (j <= i)%nat.
Proof.
  revert j; induction s as [|c s IH]; intros j; simpl.
  - destruct (startsWith sep "") eqn:E; [| done].
    intros [= <-]. split; [by apply occursAt_0 | lia].
  - destruct (startsWith sep (String c s)) eqn:E.
    + intros [= <-]. split; [by apply occursAt_0 | lia].
    + destruct (indexOf sep s) as [k|] eqn:Ek; [| done].
      intros [= <-]. destruct (IH k eq_refl) as [Hk Hmin]. split.
      * by apply occursAt_S.
      * intros [|i] Hi; [apply occursAt_0 in Hi; congruence |].
        apply occursAt_S in Hi. specialize (Hmin _ Hi). lia.
Qed.

Lemma indexOf_first sep s j :
  occursAt sep j s -> (forall i, occursAt sep i s -> (j <= i)%nat) ->
  indexOf sep s = Some j.
Proof.
  intros Hj Hmin. destruct (indexOf sep s) as [k|] eqn:E.
  - destruct (indexOf_Some _ _ _ E) as [Hk Hkmin].
    f_equal. specialize (Hmin _ Hk). specialize (Hkmin _ Hj). lia.
  - apply indexOf_None in E. destruct E. by exists j.
Qed.

End StringFacts.

(** ** Facts about [split] *)

Section SplitFacts.

Variable sep : string.
Hypothesis sep_nonempty : (0 < String.length sep)%nat.

Lemma split_absent s : ~ occurs sep s -> split sep s = [s].
Proof.
  intros H%indexOf_None. unfold split.
  destruct (String.length s); simpl; [done | by rewrite H].
Qed.

Lemma indexOf_Some_length s j :
  indexOf sep s = Some j -> (j + String.length sep <= String.length s)%nat.
Proof. intros [H _]%indexOf_Some. by apply occursAt_length. Qed.

Lemma split_rounds_length n s : (1 <= length (split_rounds n sep s))%nat.
Proof.
  destruct n; simpl; [lia |]. destruct (indexOf sep s); simpl; lia.
Qed.

(** The rounds that [split] allows are enough: more of them change nothing. *)
Lemma split_rounds_enough n m s :
  (String.length s <= n)%nat -> (String.length s <= m)%nat ->
  split_rounds n sep s = split_rounds m sep s.
Proof.
  revert m s; induction n as [|n IH]; intros [|m] s Hn Hm; simpl; try done.
  - destruct (indexOf sep s) as [j|] eqn:Ej; [| done].
    apply indexOf_Some_length in Ej. lia.
  - destruct (indexOf sep s) as [j|] eqn:Ej; [| done].
    apply indexOf_Some_length in Ej. lia.
  - destruct (indexOf sep s) as [j|] eqn:Ej; [| done].
    pose proof (indexOf_Some_length _ _ Ej) as Hj.
    f_equal. apply IH; rewrite length_drop; lia.
Qed.

(** [split] unfolds as ECMAScript describes it, with no bound on the rounds. *)
Lemma split_unfold s :
  split sep s
  = match indexOf sep s with
    | None => [s]
    | Some j => take j s :: split sep (drop (j + String.length sep) s)
    end.
Proof.
  unfold split. destruct (indexOf sep s) as [j|] eqn:Ej.
  - pose proof (indexOf_Some_length _ _ Ej) as Hj.
    destruct (String.length s) as [|n] eqn:En; [lia |].
    simpl. rewrite Ej. f_equal.
    apply split_rounds_enough; rewrite length_drop; lia.
  - destruct (String.length s); simpl; [done | by rewrite Ej].
Qed.

(** One separator found, none after it: two pieces. *)
Lemma split_two s j :
  indexOf sep s = Some j ->
  indexOf sep (drop (j + String.length sep) s) = None ->
  split sep s = [take j s; drop (j + String.length sep) s].
Proof.
  intros Hj Hrest. pose proof (indexOf_Some_length _ _ Hj) as Hlen.
  unfold split. destruct (String.length s) as [|n] eqn:En; [lia |].
  simpl. rewrite Hj. f_equal.
  destruct n; simpl; [done | by rewrite Hrest].
Qed.

(** A second separator after the first one: three pieces or more. *)
Lemma split_more s j k :
  indexOf sep s = Some j ->
  indexOf sep (drop (j + String.length sep) s) = Some k ->
  (3 <= length (split sep s))%nat.
Proof.
  intros Hj Hk. pose proof (indexOf_Some_length _ _ Hj) as Hlen.
  pose proof (indexOf_Some_length _ _ Hk) as Hlen'.
  assert (String.length s
          = (j + String.length sep + String.length (drop (j + String.length sep) s))%nat)
    as Hs.
  { rewrite <- (take_drop (j + String.length sep) s) at 1.
    rewrite length_app_str, length_take; lia. }
  unfold split. destruct (String.length s) as [|[|n]] eqn:En; [lia | lia |].
  simpl. rewrite Hj, Hk. simpl.
  match goal with |- context [split_rounds ?n ?a ?b] =>
    pose proof (split_rounds_length n b) end.
  lia.
Qed.

End SplitFacts.

Lemma marker_length : String.length marker = 14%nat.
Proof. reflexivity. Qed.

Lemma transformS3Image_absent u t :
  ~ occurs marker u -> transformS3Image u t = u.
Proof.
  intros H. unfold transformS3Image. by rewrite split_absent.
Qed.

(** The marker is found at [length a] and not again behind it. *)
Lemma transformS3Image_splice u t a b :
  u = a +:+ marker +:+ b ->
  (forall i, occursAt marker i u ->
             (String.length a <= i < String.length a + String.length marker)%nat) ->
  transformS3Image u t = a +:+ marker +:+ t +:+ "/" +:+ b.
Proof.
  intros -> Hocc.
  assert (indexOf marker (a +:+ marker +:+ b) = Some (String.length a)) as Hj.
  { apply indexOf_first; [by exists a, b |]. intros i Hi. apply Hocc in Hi. lia. }
  assert (drop (String.length a + String.length marker) (a +:+ marker +:+ b) = b)
    as Hdrop.
  { by rewrite drop_add, drop_app, drop_app. }
  assert (indexOf marker b = None) as Hrest.
  { apply indexOf_None. intros [i Hi]. rewrite <- Hdrop in Hi.
    apply occursAt_drop in Hi; [apply Hocc in Hi; lia |].
    rewrite !length_app_str. lia. }
  unfold transformS3Image.
  rewrite (split_two marker) with (j := String.length a);
    [| rewrite marker_length; lia | done | by rewrite Hdrop].
  by rewrite Hdrop, take_app.
Qed.

(** Two occurrences that do not overlap: the URL is returned as it is. *)
Lemma transformS3Image_disjoint u t i j :
  occursAt marker i u -> occursAt marker j u ->
  (i + String.length marker <= j)%nat ->
  transformS3Image u t = u.
Proof.
  intros Hi Hj Hij.
  destruct (indexOf marker u) as [j0|] eqn:E0.
  2:{ apply indexOf_None in E0. destruct E0. by exists i. }
  destruct (indexOf_Some _ _ _ E0) as [H0 Hmin].
  pose proof (Hmin _ Hi) as Hle.
  pose proof (occursAt_length _ _ _ Hj) as Hjl.
  assert (occursAt marker (j - (j0 + String.length marker))
            (drop (j0 + String.length marker) u)) as Hrest.
  { apply occursAt_drop; [lia |].
    by replace (j0 + String.length marker + (j - (j0 + String.length marker)))%nat
      with j by lia. }
  destruct (indexOf marker (drop (j0 + String.length marker) u)) as [k|] eqn:Ek.
  2:{ apply indexOf_None in Ek. destruct Ek. by eexists. }
  pose proof (split_more marker ltac:(rewrite marker_length; lia) _ _ _ E0 Ek) as H3.
  unfold transformS3Image. destruct (split marker u) as [|? [|? [|? ?]]]; simpl in *; done || lia.
Qed.

(** ** Routing and authorization *)


Section HandlerFacts.

Variable client : S3.Client.
Variable URL_new : string -> Completion URL.

Implicit Types (source : SourceFile) (config : S3Config) (req : NextApiRequest).

(** An authorized request goes to the operation of its method. *)
Lemma handle_GET source config req :
  authorized config req = Normal true -> method req = "GET" ->
  handle client URL_new source config req
  = (listMedia client URL_new source req config initial_world).2.
Proof.
  intros Hauth Hmethod. unfold handle, createMediaHandler, lift, mbind, M_bind.
  by rewrite Hauth, Hmethod.
Qed.

Lemma handle_POST source config req :
  authorized config req = Normal true -> method req = "POST" ->
  handle client URL_new source config req
  = (uploadMedia client req config initial_world).2.
Proof.
  intros Hauth Hmethod. unfold handle, createMediaHandler, lift, mbind, M_bind.
  by rewrite Hauth, Hmethod.
Qed.

Lemma handle_DELETE source config req :
  authorized config req = Normal true -> method req = "DELETE" ->
  handle client URL_new source config req
  = (deleteAsset client req config initial_world).2.
Proof.
  intros Hauth Hmethod. unfold handle, createMediaHandler, lift, mbind, M_bind.
  by rewrite Hauth, Hmethod.
Qed.

(** C7. Whatever the method of the request, when the authorization callback
    resolves to false the response has status 401 and the JSON body
    [{message: "sorry this user is not authorized"}], and no call (list, put
    or delete) is issued to the storage backend. *)
Theorem unauthorized_is_401_without_backend_call source config req :
  authorized config req = Normal false ->
  let w := handle client URL_new source config req in
  statusCode (res w) = 401%Z
  /\ responseBody (res w)
     = Some (JObj [("message", JStr "sorry this user is not authorized")])
  /\ s3_calls w = [].
Proof.
  intros Hauth. run_handler. by rewrite Hauth.
Qed.

End HandlerFacts.

(** ** The List operation *)

Section ListFacts.

Variable client : S3.Client.
Variable URL_new : string -> Completion URL.

Implicit Types (source : SourceFile) (config : S3Config) (req : NextApiRequest).

(** Whatever the backend answers, the one call of a listing is its command. *)
Lemma listMedia_calls source config req :
  s3_calls (listMedia client URL_new source req config initial_world).2
  = [list_command config req].
Proof.
  run_handler.
  destruct (S3.list_objects client _) as [response|e]; simpl.
  - destruct (match S3.Contents response with Some _ => _ | None => _ end)
      as [files|e]; simpl; [done |].
    by destruct (findErrorMessage e).
  - by destruct (findErrorMessage e).
Qed.

(** A listing that succeeds, with every projection defined. *)
Lemma listMedia_success source config req response files :
  S3.list_objects client (list_command config req) = Normal response ->
  match S3.Contents response with
  | Some contents => map_S3ToTina URL_new source config contents
  | None => Normal []
  end = Normal files ->
  res (listMedia client URL_new source req config initial_world).2
  = {| statusCode := 200;
       sent := Some (ByJson (JsObject
                 [("items", JsArray (Media.js <$> files));
                  ("offset", next_offset source response)])) |}.
Proof.
  intros Hlist Hfiles. run_handler. rewrite Hlist. simpl.
  unfold mret, Completion_ret in *. by rewrite Hfiles.
Qed.

Lemma JSON_stringify_body (files : list Media.t) (offset : JsValue) :
  JSON_stringify (JsObject [("items", JsArray (Media.js <$> files)); ("offset", offset)])
  = Some (JObj (("items", JArr (Media_json <$> files))
                :: match JSON_stringify offset with
                   | Some j => [("offset", j)]
                   | None => []
                   end)).
Proof.
  simpl. do 3 f_equal.
  - do 2 f_equal. induction files as [|m files IH]; simpl; [done |].
    f_equal. apply IH.
  - by destruct (JSON_stringify offset).
Qed.

(** C1. For a List request whose [directory] parameter is absent, the empty
    string, ["/"] or the two-character token of two double quotes, the listing
    call issued to the storage backend has the empty prefix; for every other
    non-empty [directory] string the prefix of the call is that string. *)
Theorem list_prefix_of_directory source config req :
  method req = "GET" -> authorized config req = Normal true ->
  let calls := s3_calls (handle client URL_new source config req) in
  ((query req !! "directory" = None
    \/ query req !! "directory" = Some (QString "")
    \/ query req !! "directory" = Some (QString "/")
    \/ query req !! "directory" = Some (QString empty_quotes)) ->
   listing_prefix calls = Some (JsString ""))
  /\ (forall s, query req !! "directory" = Some (QString s) ->
                s <> "" -> s <> "/" -> s <> empty_quotes ->
                listing_prefix calls = Some (JsString s)).
Proof.
  intros Hmethod Hauth. simpl. rewrite handle_GET, listMedia_calls by done.
  unfold list_command, query_param. split.
  - by intros [-> | [-> | [-> | ->]]].
  - intros s -> Hs1 Hs2 Hs3. simpl.
    apply String.eqb_neq in Hs1, Hs2, Hs3. by rewrite Hs1, Hs2, Hs3.
Qed.

(** C10. When the listing call succeeds and its answer carries no [Contents],
    the handler does not take the error branch: the status is 200 and [items]
    is the empty list. *)
Theorem list_without_contents source config req response :
  method req = "GET" -> authorized config req = Normal true ->
  S3.list_objects client (list_command config req) = Normal response ->
  S3.Contents response = None ->
  let r := res (handle client URL_new source config req) in
  statusCode r = 200%Z
  /\ responseBody r ≫= json_member "items" = Some (JArr [])
  /\ responseBody r ≫= json_member "e" = None.
Proof.
  intros Hmethod Hauth Hlist Hcontents. simpl.
  rewrite handle_GET by done.
  rewrite (listMedia_success _ _ _ response []); [| done | by rewrite Hcontents].
  unfold responseBody. simpl.
  by destruct (JSON_stringify (next_offset source response)).
Qed.

(** X20. The later revision answers with the backend's cursor: status 200,
    [items] the projected descriptors with no folder before them, [offset] the
    [NextMarker] of the answer (left out when there is none). *)
Lemma list_success_typed_client config req response files :
  method req = "GET" -> authorized config req = Normal true ->
  S3.list_objects client (list_command config req) = Normal response ->
  match S3.Contents response with
  | Some contents => map_S3ToTina URL_new handlers_ts_typed config contents
  | None => Normal []
  end = Normal files ->
  let r := res (handle client URL_new handlers_ts_typed config req) in
  statusCode r = 200%Z
  /\ responseBody r ≫= json_member "items" = Some (JArr (Media_json <$> files))
  /\ responseBody r ≫= json_member "offset" = JStr <$> S3.NextMarker response.
Proof.
  intros Hmethod Hauth Hlist Hfiles. simpl.
  rewrite handle_GET by done.
  rewrite (listMedia_success _ _ _ response files) by done.
  unfold responseBody. cbn [sent statusCode]. rewrite JSON_stringify_body.
  unfold next_offset. by destruct (S3.NextMarker response).
Qed.

(** X21. [src/handlers.ts] answers with the same status and items, and never
    with an [offset]. *)
Lemma list_success_handlers_ts config req response files :
  method req = "GET" -> authorized config req = Normal true ->
  S3.list_objects client (list_command config req) = Normal response ->
  match S3.Contents response with
  | Some contents => map_S3ToTina URL_new handlers_ts config contents
  | None => Normal []
  end = Normal files ->
  let r := res (handle client URL_new handlers_ts config req) in
  statusCode r = 200%Z
  /\ responseBody r = Some (JObj [("items", JArr (Media_json <$> files))]).
Proof.
  intros Hmethod Hauth Hlist Hfiles. simpl.
  rewrite handle_GET by done.
  rewrite (listMedia_success _ _ _ response files) by done.
  unfold responseBody. cbn [sent statusCode]. by rewrite JSON_stringify_body.
Qed.

End ListFacts.

(** ** The Upload and Delete operations *)

Section UploadDeleteFacts.

Variable client : S3.Client.
Variable URL_new : string -> Completion URL.

Implicit Types (source : SourceFile) (config : S3Config) (req : NextApiRequest).

(** Logging progress events neither throws nor touches the response or the
    backend. *)
Lemma log_progress (events : list JsValue) (w : World) :
  exists lines,
    log_each events w
    = (Normal tt, {| res := res w; s3_calls := s3_calls w; console := lines |}).
Proof.
  revert w; induction events as [|v events IH]; intros w; simpl.
  - exists (console w). by destruct w.
  - unfold mbind, M_bind, console_log. simpl.
    edestruct IH as (lines & ->). simpl. by eexists.
Qed.

(** C6. For an Upload request that carries one file with original name [f]
    and a [directory] form field [d], the put issued to the storage backend has
    ACL [public-read] and the key [d] without one leading slash, followed by
    [f]. *)
Theorem upload_key_is_directory_and_filename source config req d f p :
  method req = "POST" -> authorized config req = Normal true ->
  multipart req
  = Normal {| body_directory := Some d;
              file := Some {| originalname := f; path := p |} |} ->
  exists key,
    s3_calls (handle client URL_new source config req)
    = [Upload (bucket config) "public-read" key p]
    /\ (forall d', d = "/" +:+ d' -> key = d' +:+ f)
    /\ (startsWith "/" d = false -> key = d +:+ f).
Proof.
  intros Hmethod Hauth Hform.
  exists (replace_leading_slash d +:+ f). split; [| split].
  - rewrite handle_POST by done. run_handler. rewrite Hform. simpl.
    destruct (S3.upload_done client _) as [progress done'].
    match goal with |- context [log_each progress ?w] =>
      destruct (log_progress progress w) as (lines & ->) end.
    simpl.
    by destruct done'.
  - intros d' ->. unfold replace_leading_slash. by simpl.
  - intros Hd. unfold replace_leading_slash. by rewrite Hd.
Qed.

(** C5. For a Delete request whose [media] parameter has several segments,
    the handler passes over the first one and issues a delete call whose key is
    the second segment [k]; when that call succeeds the response has the body
    [{public_id: k}]. *)
Theorem delete_uses_second_segment source config req first k rest :
  method req = "DELETE" -> authorized config req = Normal true ->
  query req !! "media" = Some (QArray (first :: k :: rest)) ->
  let w := handle client URL_new source config req in
  s3_calls w = [DeleteObjectCommand (bucket config) (JsString k)]
  /\ (forall data,
        S3.delete_object client (DeleteObjectCommand (bucket config) (JsString k))
        = Normal data ->
        statusCode (res w) = 200%Z
        /\ responseBody (res w) = Some (JObj [("public_id", JStr k)])).
Proof.
  intros Hmethod Hauth Hmedia. simpl. rewrite handle_DELETE by done.
  run_handler. unfold query_param. rewrite Hmedia. simpl. split.
  - by destruct (S3.delete_object client _).
  - intros data ->. done.
Qed.

(** C9. On a Delete request whose delete call fails the handler does not
    respond: its [catch] only sets the status code to 500.  Nothing is sent,
    with a body or without one, and the handler resolves, so the 500 never
    leaves; the catch blocks of the other two operations do send. *)
Theorem delete_failure_sets_500_and_sends_nothing source config req public_id e :
  method req = "DELETE" -> authorized config req = Normal true ->
  second_element (query_param req "media") = Normal public_id ->
  S3.delete_object client (DeleteObjectCommand (bucket config) public_id) = Throw e ->
  let w := handle client URL_new source config req in
  s3_calls w = [DeleteObjectCommand (bucket config) public_id]
  /\ statusCode (res w) = 500%Z
  /\ sent (res w) = None
  /\ responseBody (res w) = None
  /\ outcome client URL_new source config req = Normal tt.
Proof.
  intros Hmethod Hauth Hmedia Hfail. unfold handle, outcome.
  unfold createMediaHandler, lift, mbind, M_bind. rewrite Hauth, Hmethod. simpl.
  run_handler. rewrite Hmedia. simpl. by rewrite Hfail.
Qed.

End UploadDeleteFacts.

(** ** The item projection *)

Lemma lastIndexOf_spec (sep s : string) :
  (lastIndexOf sep s = (-1)%Z /\ ~ occurs sep s)
  \/ (exists j, lastIndexOf sep s = Z.of_nat j /\ occursAt sep j s
                /\ forall i, occursAt sep i s -> (i <= j)%nat).
Proof.
  induction s as [|c s IH]; simpl.
  - destruct (startsWith sep "") eqn:E.
    + right. exists 0%nat. split; [done |]. split; [by apply occursAt_0 |].
      intros i Hi%occursAt_length. simpl in Hi. lia.
    + left. split; [done |]. intros [i Hi].
      pose proof (occursAt_length _ _ _ Hi) as Hl. simpl in Hl.
      assert (i = 0)%nat as -> by lia. apply occursAt_0 in Hi. congruence.
  - destruct IH as [[-> Hno] | (j & -> & Hj & Hmax)].
    + simpl. destruct (startsWith sep (String c s)) eqn:E.
      * right. exists 0%nat. split; [done |]. split; [by apply occursAt_0 |].
        intros [|i] Hi; [lia |]. destruct Hno. exists i. by apply occursAt_S in Hi.
      * left. split; [done |]. intros [[|i] Hi].
        -- apply occursAt_0 in Hi. congruence.
        -- apply Hno. exists i. by apply occursAt_S in Hi.
    + destruct (Z.leb_spec 0 (Z.of_nat j)) as [_|]; [| lia].
      right. exists (S j). split; [lia |]. split; [by apply occursAt_S |].
      intros [|i] Hi; [lia |]. apply occursAt_S in Hi. apply Hmax in Hi. lia.
Qed.

(** The text before the last [sep] of [d sep f], when [sep] is one code unit
    that [f] does not contain. *)
Lemma before_last_separator (c : Ascii.ascii) (d f : string) :
  let sep := String c "" in
  ~ occurs sep f ->
  let s := d +:+ sep +:+ f in
  substring s 0 (lastIndexOf sep s) = d.
Proof.
  intros sep Hf s.
  assert (occursAt sep (String.length d) s) as Hd by (by exists d, f).
  destruct (lastIndexOf_spec sep s) as [[_ Hno] | (j & Hj & Hocc & Hmax)].
  { destruct Hno. by eexists. }
  assert (j = String.length d) as ->.
  { pose proof (Hmax _ Hd) as Hle.
    destruct (decide (j = String.length d)) as [|Hne]; [done |].
    destruct Hf. exists (j - (String.length d + 1))%nat.
    assert (drop (String.length d + 1) s = f) as Hdrop.
    { unfold s. by rewrite drop_add, drop_app. }
    rewrite <- Hdrop. apply occursAt_drop.
    - unfold s. rewrite !length_app_str. simpl. lia.
    - by replace (String.length d + 1 + (j - (String.length d + 1)))%nat with j by lia. }
  rewrite Hj. unfold substring.
  assert (String.length s = (String.length d + S (String.length f))%nat) as Hlen.
  { unfold s. by rewrite !length_app_str. }
  rewrite Hlen.
  replace (Z.to_nat _) with (String.length d) by lia.
  replace (Z.to_nat _) with 0%nat by lia.
  simpl. unfold s. apply take_app.
Qed.

(** C2 (as the code has it). For every object descriptor with key [k] whose
    public URL parses, the projection returns an item whose [directory] is
    everything before the last path separator of the URL's path, and whose
    [filename] is the key [k] itself, not the last segment of the path. *)
Theorem S3ToTina_directory_and_filename (URL_new : string -> Completion URL)
    (source : SourceFile) (config : S3Config) (file : S3.Object) (url : URL) :
  URL_new (("https://" +:+ cdn_base_url config +:+ "/") +:+ S3.Key file) = Normal url ->
  exists item,
    S3ToTina URL_new source config file = Normal item
    /\ Media.filename item = S3.Key file
    /\ (forall d f, pathname url = d +:+ "/" +:+ f -> ~ occurs "/" f ->
                    Media.directory item = d).
Proof.
  intros Hurl. unfold S3ToTina. rewrite Hurl. simpl.
  eexists. split; [done |]. split; [done |].
  intros d f -> Hf. simpl. by apply before_last_separator.
Qed.

(** ** Error normalization *)

(** C4 (as the code has it). For every failure value [e] other than
    [undefined] and [null], error normalization returns without throwing: [e]
    itself when [e] is a string; else [e.message] when that is truthy; else
    [e.error.message] when [e.error] and it are truthy; else the phrase
    ["an error occurred"].  The result is a string whenever the truthy message
    fields of [e] are strings. *)
Theorem findErrorMessage_precedence (e : JsValue) :
  e <> JsUndefined -> e <> JsNull ->
  exists r,
    findErrorMessage e = Normal r
    /\ (forall s, e = JsString s -> r = e)
    /\ (typeof e <> "string" -> ToBoolean (prop e "message") = true ->
        r = prop e "message")
    /\ (typeof e <> "string" -> ToBoolean (prop e "message") = false ->
        ToBoolean (prop e "error") = true ->
        ToBoolean (prop (prop e "error") "message") = true ->
        r = prop (prop e "error") "message")
    /\ (typeof e <> "string" -> ToBoolean (prop e "message") = false ->
        ToBoolean (prop e "error") && ToBoolean (prop (prop e "error") "message") = false ->
        r = JsString "an error occurred")
    /\ ((forall v, v = prop e "message" \/ v = prop (prop e "error") "message" ->
                   ToBoolean v = true -> typeof v = "string") ->
        typeof r = "string").
Proof.
  intros Hundef Hnull. unfold findErrorMessage.
  destruct (String.eqb_spec (typeof e) "string") as [Hstr | Hstr].
  { exists e. split; [done |]. split; [done |]. by repeat split. }
  assert (forall name, Get e name = Normal (prop e name)) as Hget.
  { intros name. by destruct e. }
  rewrite !Hget. simpl.
  assert (forall v name, ToBoolean v = true -> Get v name = Normal (prop v name))
    as Hget'.
  { intros v name Hv. by destruct v. }
  destruct (ToBoolean (prop e "message")) eqn:Hm.
  { eexists. split; [done |]. split; [by intros s -> |].
    repeat split; try done. intros H. apply H; [by left | done]. }
  destruct (ToBoolean (prop e "error")) eqn:Herr.
  - rewrite Hget' by done. simpl.
    destruct (ToBoolean (prop (prop e "error") "message")) eqn:Hem.
    + eexists. split; [done |]. split; [by intros s -> |].
      repeat split; try done. intros H. apply H; [by right | done].
    + eexists. split; [done |]. split; [by intros s -> |].
      repeat split; try done.
  - eexists. split; [done |]. split; [by intros s -> |].
    repeat split; try done.
Qed.

(** ** The URL transform *)

(** C3 (as the code has it). The transform looks for the marker from the left
    and steps over each one it finds.  When the marker is absent, or occurs at
    two places that do not overlap, the URL is returned unchanged.  When it
    occurs and no occurrence lies behind the end of the first one (so when it
    occurs exactly once) the result is the URL with the token and a ["/"]
    spliced in immediately after that marker. *)
Theorem transformS3Image_by_occurrences (u t : string) :
  (~ occurs marker u -> transformS3Image u t = u)
  /\ (forall a b, u = a +:+ marker +:+ b ->
        (forall i, occursAt marker i u -> i = String.length a) ->
        transformS3Image u t = a +:+ marker +:+ t +:+ "/" +:+ b)
  /\ (forall a b, u = a +:+ marker +:+ b ->
        (forall i, occursAt marker i u ->
           (String.length a <= i < String.length a + String.length marker)%nat) ->
        transformS3Image u t = a +:+ marker +:+ t +:+ "/" +:+ b)
  /\ (forall i j, occursAt marker i u -> occursAt marker j u ->
        (i + String.length marker <= j)%nat ->
        transformS3Image u t = u).
Proof.
  split; [apply transformS3Image_absent |].
  split; [| split].
  - intros a b Hu Honce. apply transformS3Image_splice; [done |].
    intros i Hi. rewrite (Honce i Hi), marker_length. lia.
  - apply transformS3Image_splice.
  - apply transformS3Image_disjoint.
Qed.

(** ** Worked examples *)

(** A first occurrence with none behind its first code unit is the only one. *)
Lemma occursAt_only (sep s : string) (j : nat) :
  indexOf sep s = Some j -> indexOf sep (drop (j + 1) s) = None ->
  forall i, occursAt sep i s -> i = j.
Proof.
  intros [Hj Hmin]%indexOf_Some Hrest%indexOf_None i Hi.
  pose proof (Hmin _ Hi) as Hle.
  destruct (decide (i = j)) as [|Hne]; [done |].
  destruct Hrest. exists (i - (j + 1))%nat.
  pose proof (occursAt_length _ _ _ Hi) as Hlen.
  apply occursAt_drop; [lia |].
  by replace (j + 1 + (i - (j + 1)))%nat with i by lia.
Qed.

(** The examples of the specification for error normalization. *)
Example findErrorMessage_string :
  findErrorMessage (JsString "boom") = Normal (JsString "boom").
Proof. reflexivity. Qed.

Example findErrorMessage_message :
  findErrorMessage (JsObject [("message", JsString "x")]) = Normal (JsString "x").
Proof. reflexivity. Qed.

Example findErrorMessage_nested :
  findErrorMessage (JsObject [("error", JsObject [("message", JsString "y")])])
  = Normal (JsString "y").
Proof. reflexivity. Qed.

Example findErrorMessage_empty_object :
  findErrorMessage (JsObject []) = Normal (JsString "an error occurred").
Proof. reflexivity. Qed.

(** [null] makes the normalization itself throw; a truthy message that is no
    string is returned as it is; an empty message field is passed over. *)
Lemma findErrorMessage_outside_the_precedence :
  findErrorMessage JsNull
  = Throw (TypeError "Cannot read properties of null (reading 'message')")
  /\ findErrorMessage (JsObject [("message", JsNumber 42)]) = Normal (JsNumber 42)
  /\ findErrorMessage (JsObject [("message", JsString "")])
     = Normal (JsString "an error occurred").
Proof. repeat split. Qed.

Lemma findErrorMessage_precedence_witness :
  findErrorMessage (JsObject [("error", JsObject [("message", JsString "y")])])
  = Normal (JsString "y").
Proof.
  destruct (findErrorMessage_precedence
              (JsObject [("error", JsObject [("message", JsString "y")])]))
    as (r & -> & _ & _ & H & _); [discriminate | discriminate |].
  rewrite H; [reflexivity | discriminate | reflexivity..].
Defined.

(** The marker occurs at 23 and at 36 of the overlapping URL, and the
    transform rewrites it. *)
Lemma transformS3Image_overlapping_markers :
  occurs_more_than_once marker Example.overlapping_url
  /\ transformS3Image Example.overlapping_url "w_125,h_125,c_fill,q_auto"
     = "https://cdn.example.com/image/upload/w_125,h_125,c_fill,q_auto/image/upload/cat.png"
  /\ transformS3Image Example.overlapping_url "w_125,h_125,c_fill,q_auto"
     <> Example.overlapping_url.
Proof.
  split; [| split; [reflexivity | discriminate]].
  exists 23%nat, 36%nat. split; [lia |]. split.
  - by exists "https://cdn.example.com", "image/upload/cat.png".
  - by exists "https://cdn.example.com/image/upload", "cat.png".
Qed.

Lemma transformS3Image_by_occurrences_witness :
  transformS3Image "https://cdn.example.com/assets/cat.png" "w_125"
  = "https://cdn.example.com/assets/cat.png"
  /\ transformS3Image "https://cdn.example.com/image/upload/cat.png" "w_125"
     = "https://cdn.example.com/image/upload/w_125/cat.png"
  /\ transformS3Image Example.overlapping_url "w_125"
     = "https://cdn.example.com/image/upload/w_125/image/upload/cat.png"
  /\ transformS3Image "https://cdn.example.com/image/upload/a/image/upload/cat.png" "w_125"
     = "https://cdn.example.com/image/upload/a/image/upload/cat.png".
Proof.
  split; [| split; [| split]].
  - destruct (transformS3Image_by_occurrences
                "https://cdn.example.com/assets/cat.png" "w_125") as (Habsent & _).
    apply Habsent. by apply indexOf_None.
  - destruct (transformS3Image_by_occurrences
                "https://cdn.example.com/image/upload/cat.png" "w_125")
      as (_ & Honce & _).
    apply (Honce "https://cdn.example.com" "cat.png"); [reflexivity |].
    by apply occursAt_only.
  - destruct (transformS3Image_by_occurrences Example.overlapping_url "w_125")
      as (_ & _ & Hfirst & _).
    apply (Hfirst "https://cdn.example.com" "image/upload/cat.png"); [reflexivity |].
    intros i Hi. simpl.
    destruct (decide (i = 23)%nat) as [-> | Hne]; [lia |].
    assert (i = 36)%nat as ->; [| lia].
    assert (occursAt marker (i - 24) (drop 24 Example.overlapping_url)) as Hi'.
    { pose proof (indexOf_Some marker Example.overlapping_url 23 eq_refl) as [_ Hmin].
      pose proof (Hmin _ Hi). apply occursAt_drop; [simpl; lia |].
      by replace (24 + (i - 24))%nat with i by lia. }
    apply (occursAt_only _ _ 12) in Hi'; [lia | reflexivity..].
  - destruct (transformS3Image_by_occurrences
                "https://cdn.example.com/image/upload/a/image/upload/cat.png" "w_125")
      as (_ & _ & _ & Hdisjoint).
    apply (Hdisjoint 23%nat 38%nat); [| | simpl; lia].
    + by exists "https://cdn.example.com", "a/image/upload/cat.png".
    + by exists "https://cdn.example.com/image/upload/a", "cat.png".
Defined.

(** The item of [assets/cat.png]: its file name is the whole key, while the
    last segment of the URL's path is [cat.png]. *)
Lemma S3ToTina_filename_is_the_key :
  S3ToTina plain_URL handlers_ts (Example.config true) Example.cat
  = Normal Example.cat_item
  /\ plain_URL "https://cdn.example.com/assets/cat.png" = Normal Example.cat_url
  /\ last_segment (pathname Example.cat_url) = "cat.png"
  /\ Media.filename Example.cat_item <> last_segment (pathname Example.cat_url).
Proof. split; [reflexivity |]. split; [reflexivity |]. split; [reflexivity | discriminate]. Qed.

Lemma S3ToTina_directory_and_filename_witness :
  exists item,
    S3ToTina plain_URL handlers_ts_typed (Example.config true) Example.cat = Normal item
    /\ Media.filename item = "assets/cat.png"
    /\ Media.directory item = "/assets".
Proof.
  destruct (S3ToTina_directory_and_filename plain_URL handlers_ts_typed (Example.config true)
              Example.cat Example.cat_url eq_refl) as (item & Hitem & Hname & Hdir).
  exists item. split; [exact Hitem |]. split; [exact Hname |].
  apply (Hdir "/assets" "cat.png"); [reflexivity | by apply indexOf_None].
Defined.

(** C8 in [src/handlers.ts]. The backend answers a listing with one object
    and the marker to continue from.  The status is 200 and [items] holds the
    projected object, but the body has no [offset]: the handler reads
    [next_cursor], which the answer does not have.  The later revision reads
    [NextMarker] and answers with it. *)
Theorem list_offset_is_lost_in_handlers_ts :
  let client := Example.client (Normal Example.truncated_listing) Example.ok Example.ok in
  let req := Example.request "GET" ∅ in
  let r := res (handle client plain_URL handlers_ts (Example.config true) req) in
  let r' := res (handle client plain_URL handlers_ts_typed (Example.config true) req) in
  statusCode r = 200%Z
  /\ responseBody r = Some (JObj [("items", JArr [Media_json Example.cat_item])])
  /\ responseBody r'
     = Some (JObj [("items", JArr [Media_json Example.cat_item]);
                   ("offset", JStr "assets/cat.png")]).
Proof. repeat split. Qed.

Lemma unauthorized_witness :
  let w := handle (Example.client (Normal Example.truncated_listing) Example.ok Example.ok)
             plain_URL handlers_ts (Example.config false)
             (Example.request "DELETE" {[ "media" := QArray ["ignored"; "key123"] ]}) in
  statusCode (res w) = 401%Z
  /\ responseBody (res w)
     = Some (JObj [("message", JStr "sorry this user is not authorized")])
  /\ s3_calls w = [].
Proof.
  apply (unauthorized_is_401_without_backend_call
           (Example.client (Normal Example.truncated_listing) Example.ok Example.ok)
           plain_URL handlers_ts (Example.config false)).
  reflexivity.
Defined.

Lemma list_prefix_witness :
  let client := Example.client (Normal Example.truncated_listing) Example.ok Example.ok in
  let calls q := s3_calls (handle client plain_URL handlers_ts_typed (Example.config true)
                             (Example.request "GET" q)) in
  listing_prefix (calls ∅) = Some (JsString "")
  /\ listing_prefix (calls {[ "directory" := QString empty_quotes ]}) = Some (JsString "")
  /\ listing_prefix (calls {[ "directory" := QString "assets/" ]})
     = Some (JsString "assets/").
Proof.
  cbv zeta. split; [| split].
  - destruct (list_prefix_of_directory
                (Example.client (Normal Example.truncated_listing) Example.ok Example.ok)
                plain_URL handlers_ts_typed (Example.config true) (Example.request "GET" ∅)
                eq_refl eq_refl) as [Hroot _].
    apply Hroot. by left.
  - destruct (list_prefix_of_directory
                (Example.client (Normal Example.truncated_listing) Example.ok Example.ok)
                plain_URL handlers_ts_typed (Example.config true)
                (Example.request "GET" {[ "directory" := QString empty_quotes ]})
                eq_refl eq_refl) as [Hroot _].
    apply Hroot. by right; right; right.
  - destruct (list_prefix_of_directory
                (Example.client (Normal Example.truncated_listing) Example.ok Example.ok)
                plain_URL handlers_ts_typed (Example.config true)
                (Example.request "GET" {[ "directory" := QString "assets/" ]})
                eq_refl eq_refl) as [_ Hdir].
    apply Hdir; [reflexivity | discriminate..].
Defined.

Lemma list_without_contents_witness :
  let r := res (handle (Example.client (Normal Example.empty_listing) Example.ok Example.ok)
                  plain_URL handlers_ts (Example.config true)
                  (Example.request "GET" ∅)) in
  statusCode r = 200%Z
  /\ responseBody r ≫= json_member "items" = Some (JArr [])
  /\ responseBody r ≫= json_member "e" = None.
Proof.
  apply (list_without_contents
           (Example.client (Normal Example.empty_listing) Example.ok Example.ok)
           plain_URL handlers_ts (Example.config true) (Example.request "GET" ∅)
           Example.empty_listing); reflexivity.
Defined.

Lemma upload_key_witness :
  exists key,
    s3_calls (handle (Example.client (Normal Example.empty_listing) Example.ok Example.ok)
                plain_URL handlers_ts (Example.config true)
                (Example.post "/assets/" "cat.png"))
    = [Upload "media" "public-read" key "/tmp/cat.png"]
    /\ key = "assets/cat.png".
Proof.
  destruct (upload_key_is_directory_and_filename
              (Example.client (Normal Example.empty_listing) Example.ok Example.ok)
              plain_URL handlers_ts (Example.config true)
              (Example.post "/assets/" "cat.png") "/assets/" "cat.png" "/tmp/cat.png"
              eq_refl eq_refl eq_refl) as (key & Hcalls & Hslash & _).
  exists key. split; [exact Hcalls |]. exact (Hslash "assets/" eq_refl).
Defined.

Lemma delete_second_segment_witness :
  let w := handle (Example.client (Normal Example.empty_listing) Example.ok Example.ok)
             plain_URL handlers_ts (Example.config true)
             (Example.request "DELETE" {[ "media" := QArray ["ignored"; "key123"] ]}) in
  s3_calls w = [DeleteObjectCommand "media" (JsString "key123")]
  /\ statusCode (res w) = 200%Z
  /\ responseBody (res w) = Some (JObj [("public_id", JStr "key123")]).
Proof.
  assert (query (Example.request "DELETE" {[ "media" := QArray ["ignored"; "key123"] ]})
          !! "media" = Some (QArray ["ignored"; "key123"])) as Hmedia by reflexivity.
  destruct (delete_uses_second_segment
              (Example.client (Normal Example.empty_listing) Example.ok Example.ok)
              plain_URL handlers_ts (Example.config true)
              (Example.request "DELETE" {[ "media" := QArray ["ignored"; "key123"] ]})
              "ignored" "key123" [] eq_refl eq_refl Hmedia) as [Hcalls Hok].
  split; [exact Hcalls |]. exact (Hok (JsObject []) eq_refl).
Defined.

Lemma delete_failure_witness :
  let client := Example.client (Normal Example.empty_listing) Example.failure Example.ok in
  let req := Example.request "DELETE" {[ "media" := QArray ["ignored"; "key123"] ]} in
  let w := handle client plain_URL handlers_ts (Example.config true) req in
  s3_calls w = [DeleteObjectCommand "media" (JsString "key123")]
  /\ statusCode (res w) = 500%Z
  /\ sent (res w) = None
  /\ responseBody (res w) = None
  /\ outcome client plain_URL handlers_ts (Example.config true) req = Normal tt.
Proof.
  apply (delete_failure_sets_500_and_sends_nothing
           (Example.client (Normal Example.empty_listing) Example.failure Example.ok)
           plain_URL handlers_ts (Example.config true)
           (Example.request "DELETE" {[ "media" := QArray ["ignored"; "key123"] ]})
           (JsString "key123")
           (JsObject [("name", JsString "NoSuchBucket");
                      ("message", JsString "The specified bucket does not exist")]));
    reflexivity.
Defined.

(** ** Every path of a handler call *)



Section Paths.

Variable client : S3.Client.
Variable URL_new : string -> Completion URL.

Implicit Types (source : SourceFile) (config : S3Config) (req : NextApiRequest).

Lemma run_GET source config req :
  authorized config req = Normal true -> method req = "GET" ->
  createMediaHandler client URL_new source config req initial_world
  = listMedia client URL_new source req config initial_world.
Proof.
  intros Hauth Hmethod. unfold createMediaHandler, lift, mbind, M_bind.
  by rewrite Hauth, Hmethod.
Qed.

Lemma run_POST source config req :
  authorized config req = Normal true -> method req = "POST" ->
  createMediaHandler client URL_new source config req initial_world
  = uploadMedia client req config initial_world.
Proof.
  intros Hauth Hmethod. unfold createMediaHandler, lift, mbind, M_bind.
  by rewrite Hauth, Hmethod.
Qed.

Lemma run_DELETE source config req :
  authorized config req = Normal true -> method req = "DELETE" ->
  createMediaHandler client URL_new source config req initial_world
  = deleteAsset client req config initial_world.
Proof.
  intros Hauth Hmethod. unfold createMediaHandler, lift, mbind, M_bind.
  by rewrite Hauth, Hmethod.
Qed.

Lemma run_other source config req :
  authorized config req = Normal true ->
  method req <> "GET" -> method req <> "POST" -> method req <> "DELETE" ->
  createMediaHandler client URL_new source config req initial_world
  = res_end (JsNumber 404) initial_world.
Proof.
  intros Hauth H1%String.eqb_neq H2%String.eqb_neq H3%String.eqb_neq.
  unfold createMediaHandler, lift, mbind, M_bind.
  by rewrite Hauth, H1, H2, H3.
Qed.

Lemma listMedia_run source req config :
  listMedia client URL_new source req config initial_world
  = match list_attempt client URL_new source config req with
    | Normal (response, files) =>
        (Normal tt,
         {| res := {| statusCode := 200;
                      sent := Some (ByJson (JsObject
                                [("items", JsArray (Media.js <$> files));
                                 ("offset", next_offset source response)])) |};
            s3_calls := [list_command config req]; console := [] |})
    | Throw e =>
        match findErrorMessage e with
        | Normal message =>
            (Normal tt,
             {| res := {| statusCode := 500;
                          sent := Some (ByJson (JsObject [("e", message)])) |};
                s3_calls := [list_command config req]; console := [] |})
        | Throw err =>
            (Throw err,
             {| res := {| statusCode := 500; sent := None |};
                s3_calls := [list_command config req]; console := [] |})
        end
    end.
Proof.
  unfold list_attempt. run_handler.
  destruct (S3.list_objects client _) as [response|e]; simpl.
  - destruct (match S3.Contents response with Some _ => _ | None => _ end)
      as [files|e]; simpl; [done |].
    by destruct (findErrorMessage e).
  - by destruct (findErrorMessage e).
Qed.

Lemma log_each_run (events : list JsValue) (w : World) :
  log_each events w
  = (Normal tt,
     {| res := res w; s3_calls := s3_calls w; console := console w ++ events |}).
Proof.
  revert w; induction events as [|v events IH]; intros w; simpl.
  - rewrite app_nil_r. by destruct w.
  - unfold mbind, M_bind, console_log. simpl. rewrite IH. simpl.
    by rewrite <- app_assoc.
Qed.

Lemma uploadMedia_run req config d f p :
  multipart req
  = Normal {| body_directory := Some d;
              file := Some {| originalname := f; path := p |} |} ->
  let params := Upload (bucket config) "public-read" (replace_leading_slash d +:+ f) p in
  uploadMedia client req config initial_world
  = match S3.upload_done client params with
    | (progress, Normal result) =>
        (Normal tt,
         {| res := {| statusCode := 200; sent := Some (ByJson result) |};
            s3_calls := [params]; console := progress |})
    | (progress, Throw e) =>
        (Normal tt,
         {| res := {| statusCode := 200; sent := Some (BySend (JsNumber 500)) |};
            s3_calls := [params]; console := progress ++ [e] |})
    end.
Proof.
  intros Hform. run_handler. rewrite Hform. simpl.
  destruct (S3.upload_done client _) as [progress done'].
  rewrite log_each_run. simpl. by destruct done'.
Qed.

Lemma uploadMedia_multer_fails req config e :
  multipart req = Throw e ->
  uploadMedia client req config initial_world = (Throw e, initial_world).
Proof. intros Hform. run_handler. by rewrite Hform. Qed.

Lemma uploadMedia_incomplete req config form :
  multipart req = Normal form ->
  body_directory form = None \/ file form = None ->
  exists message,
    uploadMedia client req config initial_world
    = (Normal tt,
       {| res := {| statusCode := 200; sent := Some (BySend (JsNumber 500)) |};
          s3_calls := []; console := [TypeError message] |}).
Proof.
  intros Hform Hmissing. run_handler. rewrite Hform. simpl.
  destruct form as [[d|] [f|]]; simpl in *; try (by eexists).
  by destruct Hmissing.
Qed.

Lemma deleteAsset_run req config public_id :
  second_element (query_param req "media") = Normal public_id ->
  let command := DeleteObjectCommand (bucket config) public_id in
  deleteAsset client req config initial_world
  = match S3.delete_object client command with
    | Normal _ =>
        (Normal tt,
         {| res := {| statusCode := 200;
                      sent := Some (ByJson (JsObject [("undefined", JsUndefined);
                                                      ("public_id", public_id)])) |};
            s3_calls := [command]; console := [] |})
    | Throw _ =>
        (Normal tt,
         {| res := {| statusCode := 500; sent := None |};
            s3_calls := [command]; console := [] |})
    end.
Proof.
  intros Hmedia. run_handler. rewrite Hmedia. simpl.
  by destruct (S3.delete_object client _).
Qed.

Lemma deleteAsset_not_iterable req config e :
  second_element (query_param req "media") = Throw e ->
  deleteAsset client req config initial_world = (Throw e, initial_world).
Proof. intros Hmedia. run_handler. by rewrite Hmedia. Qed.

End Paths.

(** ** Routing, failures and edge cases of the three operations *)

Section OperationFacts.

Variable client : S3.Client.
Variable URL_new : string -> Completion URL.

Implicit Types (source : SourceFile) (config : S3Config) (req : NextApiRequest).

(** X1. For an authorized request whose method is none of GET, POST and
    DELETE the handler answers no 404: [res.end(404)] throws a TypeError for
    its number chunk, so the handler's promise rejects with the response
    untouched (the status code at its default, nothing sent), and no storage
    call is issued. *)
Theorem unsupported_method_rejects_without_a_response source config req :
  authorized config req = Normal true ->
  method req <> "GET" -> method req <> "POST" -> method req <> "DELETE" ->
  let w := handle client URL_new source config req in
  (exists message,
     outcome client URL_new source config req = Throw (TypeError message))
  /\ s3_calls w = []
  /\ statusCode (res w) = 200%Z
  /\ sent (res w) = None.
Proof.
  intros Hauth H1 H2 H3. unfold handle, outcome. rewrite run_other by done.
  unfold res_end, lift. simpl. repeat split. by eexists.
Qed.

(** X2. A handler call issues at most one call to the storage backend, only
    when the authorization callback resolved to true, and only of the kind of
    the request's method: a listing on GET, a put on POST, a delete on
    DELETE. *)
Theorem backend_calls_are_authorized_and_match_method source config req :
  let calls := s3_calls (handle client URL_new source config req) in
  (length calls <= 1)%nat
  /\ forall call, In call calls ->
       authorized config req = Normal true /\ call_method call = method req.
Proof.
  unfold handle.
  destruct (authorized config req) as [[|]|e] eqn:Hauth.
  2,3: (unfold createMediaHandler, lift, mbind, M_bind; rewrite Hauth; simpl;
        split; [lia | by intros call []]).
  destruct (String.eqb_spec (method req) "GET") as [Hget|Hget].
  { rewrite run_GET, listMedia_calls by done. simpl.
    split; [lia |]. by intros call [<- | []]. }
  destruct (String.eqb_spec (method req) "POST") as [Hpost|Hpost].
  { rewrite run_POST by done.
    destruct (multipart req) as [[[d|] [[f p]|]]|e] eqn:Hform.
    - rewrite (uploadMedia_run _ _ _ d f p) by done.
      destruct (S3.upload_done client _) as [progress [result|e]]; simpl;
        (split; [lia |]); by intros call [<- | []].
    - edestruct (uploadMedia_incomplete client req config) as [m ->];
        [done | by right |]. simpl. split; [lia | by intros call []].
    - edestruct (uploadMedia_incomplete client req config) as [m ->];
        [done | by left |]. simpl. split; [lia | by intros call []].
    - edestruct (uploadMedia_incomplete client req config) as [m ->];
        [done | by left |]. simpl. split; [lia | by intros call []].
    - rewrite (uploadMedia_multer_fails _ _ _ e) by done. simpl.
      split; [lia | by intros call []]. }
  destruct (String.eqb_spec (method req) "DELETE") as [Hdel|Hdel].
  { rewrite run_DELETE by done.
    destruct (second_element (query_param req "media")) as [public_id|e] eqn:Hmedia.
    - rewrite (deleteAsset_run _ _ _ public_id) by done.
      destruct (S3.delete_object client _); simpl;
        (split; [lia |]); by intros call [<- | []].
    - rewrite (deleteAsset_not_iterable _ _ _ e) by done. simpl.
      split; [lia | by intros call []]. }
  rewrite run_other by done. simpl. split; [lia | by intros call []].
Qed.


(** X4. A rejection before the operation starts propagates as it is, with
    the response untouched and no storage call issued: a rejecting
    authorization callback on any request, a rejecting multer on POST, and an
    absent [media] parameter on DELETE. *)
Theorem early_rejections_leave_the_response_untouched source config req e :
  (authorized config req = Throw e ->
   createMediaHandler client URL_new source config req initial_world
   = (Throw e, initial_world))
  /\ (authorized config req = Normal true -> method req = "POST" ->
      multipart req = Throw e ->
      createMediaHandler client URL_new source config req initial_world
      = (Throw e, initial_world))
  /\ (authorized config req = Normal true -> method req = "DELETE" ->
      query req !! "media" = None ->
      exists err,
        createMediaHandler client URL_new source config req initial_world
        = (Throw err, initial_world)).
Proof.
  split; [| split].
  - intros Hauth. unfold createMediaHandler, lift, mbind, M_bind. by rewrite Hauth.
  - intros Hauth Hmethod Hform. rewrite run_POST by done.
    by apply uploadMedia_multer_fails.
  - intros Hauth Hmethod Hmedia. rewrite run_DELETE by done.
    eexists. apply deleteAsset_not_iterable.
    unfold query_param. by rewrite Hmedia.
Qed.

(** X5. When the upload succeeds the response is the backend's upload result
    as it is, with the default status 200; the progress events went to the
    console, in order, and not to the response. *)
Theorem upload_success_answers_the_backend_result source config req d f p
    progress result :
  method req = "POST" -> authorized config req = Normal true ->
  multipart req
  = Normal {| body_directory := Some d;
              file := Some {| originalname := f; path := p |} |} ->
  S3.upload_done client
    (Upload (bucket config) "public-read" (replace_leading_slash d +:+ f) p)
  = (progress, Normal result) ->
  let w := handle client URL_new source config req in
  statusCode (res w) = 200%Z
  /\ sent (res w) = Some (ByJson result)
  /\ console w = progress.
Proof.
  intros Hmethod Hauth Hform Hdone. unfold handle.
  rewrite run_POST, (uploadMedia_run _ _ _ d f p) by done. by rewrite Hdone.
Qed.

(** X6. When the upload fails the handler resolves all the same: the error is
    logged after the progress events and does not reach the response, which is
    [res.send(500)]: 500 is the body passed to [send], the status code is not
    set, and no JSON body is written. *)
Theorem upload_failure_is_logged_and_sent_as_500 source config req d f p
    progress e :
  method req = "POST" -> authorized config req = Normal true ->
  multipart req
  = Normal {| body_directory := Some d;
              file := Some {| originalname := f; path := p |} |} ->
  S3.upload_done client
    (Upload (bucket config) "public-read" (replace_leading_slash d +:+ f) p)
  = (progress, Throw e) ->
  let w := handle client URL_new source config req in
  outcome client URL_new source config req = Normal tt
  /\ sent (res w) = Some (BySend (JsNumber 500))
  /\ statusCode (res w) = 200%Z
  /\ responseBody (res w) = None
  /\ console w = (progress ++ [e])%list.
Proof.
  intros Hmethod Hauth Hform Hdone. unfold handle, outcome.
  rewrite run_POST, (uploadMedia_run _ _ _ d f p) by done. by rewrite Hdone.
Qed.

(** X7. When the multipart request has no [directory] field or no file, no
    put is issued: reading the missing value throws a TypeError inside [try],
    which is logged, and the response is [res.send(500)]. *)
Theorem upload_without_directory_or_file_issues_no_put source config req form :
  method req = "POST" -> authorized config req = Normal true ->
  multipart req = Normal form ->
  body_directory form = None \/ file form = None ->
  let w := handle client URL_new source config req in
  s3_calls w = []
  /\ sent (res w) = Some (BySend (JsNumber 500))
  /\ exists message, console w = [TypeError message].
Proof.
  intros Hmethod Hauth Hform Hmissing. unfold handle. rewrite run_POST by done.
  edestruct (uploadMedia_incomplete client req config) as [m ->]; [done.. |].
  simpl. repeat split. by eexists.
Qed.

(** X8. When the listing call fails with a value [e] that the error
    normalization maps to [message], the response has status 500 and the body
    [{e: message}]; the handler resolves. *)
Theorem list_backend_failure_is_normalized source config req e message :
  method req = "GET" -> authorized config req = Normal true ->
  S3.list_objects client (list_command config req) = Throw e ->
  findErrorMessage e = Normal message ->
  let w := handle client URL_new source config req in
  outcome client URL_new source config req = Normal tt
  /\ statusCode (res w) = 500%Z
  /\ sent (res w) = Some (ByJson (JsObject [("e", message)])).
Proof.
  intros Hmethod Hauth Hlist Hmessage. unfold handle, outcome.
  rewrite run_GET, listMedia_run by done.
  unfold list_attempt. rewrite Hlist. simpl. by rewrite Hmessage.
Qed.

(** X9. A listing that succeeds still answers 500 when the projection of one
    of its objects throws (its public URL does not parse): the body is
    [{e: message}] for the normalized error, not the items. *)
Theorem list_projection_failure_is_500 source config req response contents e
    message :
  method req = "GET" -> authorized config req = Normal true ->
  S3.list_objects client (list_command config req) = Normal response ->
  S3.Contents response = Some contents ->
  map_S3ToTina URL_new source config contents = Throw e ->
  findErrorMessage e = Normal message ->
  let w := handle client URL_new source config req in
  statusCode (res w) = 500%Z
  /\ sent (res w) = Some (ByJson (JsObject [("e", message)]))
  /\ s3_calls w = [list_command config req].
Proof.
  intros Hmethod Hauth Hlist Hcontents Hmap Hmessage. unfold handle.
  rewrite run_GET, listMedia_run by done.
  unfold list_attempt. rewrite Hlist. simpl. rewrite Hcontents, Hmap. simpl.
  by rewrite Hmessage.
Qed.

(** X10. When the listing call fails with [undefined] or [null], the error
    normalization throws inside the [catch]: the handler's promise rejects with
    a TypeError, the status code is already 500 and nothing was sent. *)
Theorem list_nullish_failure_rejects source config req e :
  method req = "GET" -> authorized config req = Normal true ->
  S3.list_objects client (list_command config req) = Throw e ->
  nullish e ->
  let w := handle client URL_new source config req in
  (exists message,
     outcome client URL_new source config req = Throw (TypeError message))
  /\ statusCode (res w) = 500%Z
  /\ sent (res w) = None.
Proof.
  intros Hmethod Hauth Hlist He. unfold handle, outcome.
  rewrite run_GET, listMedia_run by done.
  unfold list_attempt. rewrite Hlist. simpl.
  destruct He as [-> | ->]; simpl; repeat split; by eexists.
Qed.

(** X11. The listing call forwards the query as it came: [MaxKeys] is the
    number 500 when [limit] is absent and otherwise the [limit] string itself
    (it is not parsed into a number); [Marker] is [undefined] when [offset] is
    absent and otherwise the [offset] string; the bucket is the configured one.
    A [directory] that arrives as an array is passed on as the prefix. *)
Theorem list_forwards_the_query_values source config req :
  method req = "GET" -> authorized config req = Normal true ->
  let calls := s3_calls (handle client URL_new source config req) in
  (exists prefix max_keys marker,
     calls = [ListObjectsCommand (bucket config) prefix max_keys marker])
  /\ (query req !! "limit" = None -> listing_max_keys calls = Some (JsNumber 500))
  /\ (forall s, query req !! "limit" = Some (QString s) ->
                listing_max_keys calls = Some (JsString s))
  /\ (query req !! "offset" = None -> listing_marker calls = Some JsUndefined)
  /\ (forall s, query req !! "offset" = Some (QString s) ->
                listing_marker calls = Some (JsString s))
  /\ (forall segments, query req !! "directory" = Some (QArray segments) ->
                       listing_prefix calls = Some (JsArray (JsString <$> segments))).
Proof.
  intros Hmethod Hauth. simpl. rewrite handle_GET, listMedia_calls by done.
  unfold list_command, query_param. split; [by eexists _, _, _ |].
  split; [by intros -> |]. split; [by intros s -> |].
  split; [by intros -> |]. split; [by intros s -> |]. by intros segments ->.
Qed.

(** X16. When [media] is an array with fewer than two segments the delete
    command is built with an [undefined] key.  The S3 client rejects a command
    without a key, and with such a client the handler sets the status code to
    500 and sends nothing: a short [media] never gets a success answer. *)
Theorem delete_with_one_segment_has_no_key source config req segments e :
  method req = "DELETE" -> authorized config req = Normal true ->
  query req !! "media" = Some (QArray segments) ->
  (length segments <= 1)%nat ->
  S3.delete_object client (DeleteObjectCommand (bucket config) JsUndefined) = Throw e ->
  let w := handle client URL_new source config req in
  deleted_key (s3_calls w) = Some JsUndefined
  /\ statusCode (res w) = 500%Z
  /\ sent (res w) = None.
Proof.
  intros Hmethod Hauth Hmedia Hlen Hrefused. unfold handle.
  rewrite run_DELETE by done.
  rewrite (deleteAsset_run _ _ _ JsUndefined).
  2:{ unfold query_param. rewrite Hmedia. simpl.
      destruct segments as [|? [|? ?]]; simpl in *; [done | done | lia]. }
  by rewrite Hrefused.
Qed.

(** X17. When [media] arrives as one string and not as an array, the
    destructuring iterates over its characters: the key of the delete call is
    the second character of the string. *)
Theorem delete_with_string_media_uses_its_second_character source config req
    c0 c rest :
  method req = "DELETE" -> authorized config req = Normal true ->
  query req !! "media" = Some (QString (String c0 (String c rest))) ->
  deleted_key (s3_calls (handle client URL_new source config req))
  = Some (JsString (String c "")).
Proof.
  intros Hmethod Hauth Hmedia. unfold handle. rewrite run_DELETE by done.
  rewrite (deleteAsset_run _ _ _ (JsString (String c ""))).
  2:{ unfold query_param. by rewrite Hmedia. }
  by destruct (S3.delete_object client _).
Qed.

End OperationFacts.

(** ** More on the projection, the transform and the normalization *)

Lemma endsWith_spec (p s : string) :
  endsWith p s = true <-> exists a, s = a +:+ p.
Proof.
  split.
  - induction s as [|c s IH]; simpl.
    + intros ->%String.eqb_eq. by exists "".
    + intros [->%String.eqb_eq | H]%orb_true_iff; [by exists "" |].
      destruct (IH H) as [a ->]. by exists (String c a).
  - intros [a ->]. induction a as [|c a IH].
    + destruct p as [|x p]; [done |].
      cbn [String.append endsWith]. by rewrite String.eqb_refl.
    + cbn [String.append endsWith]. by rewrite IH, orb_true_r.
Qed.

Section ProjectionFacts.

Variable URL_new : string -> Completion URL.

Implicit Types (source : SourceFile) (config : S3Config) (file : S3.Object).

(** X12. In the later revision an object whose key ends in [.mp4] (in this
    spelling) gets the embedded placeholder as preview, whatever its URL; every
    other object gets the transform of its URL.  [src/handlers.ts] has no such
    case: there the preview of every object is the transform of its URL. *)
Theorem S3ToTina_video_preview config file url :
  URL_new (("https://" +:+ cdn_base_url config +:+ "/") +:+ S3.Key file) = Normal url ->
  exists typed plain,
    S3ToTina URL_new handlers_ts_typed config file = Normal typed
    /\ S3ToTina URL_new handlers_ts config file = Normal plain
    /\ ((exists stem, S3.Key file = stem +:+ ".mp4") ->
        Media.previewSrc typed = video_placeholder)
    /\ (~ (exists stem, S3.Key file = stem +:+ ".mp4") ->
        Media.previewSrc typed
        = transformS3Image (href url) "w_125,h_125,c_fill,q_auto")
    /\ Media.previewSrc plain
       = transformS3Image (href url) "w_125,h_125,c_fill,q_auto".
Proof.
  intros Hurl. unfold S3ToTina. rewrite Hurl. simpl.
  eexists _, _. split; [done |]. split; [done |]. simpl.
  split; [| split; [| done]].
  - intros H%endsWith_spec. by rewrite H.
  - intros H. destruct (endsWith ".mp4" (S3.Key file)) eqn:E; [| done].
    destruct H. by apply endsWith_spec.
Qed.

(** X13. Whenever the public URL of an object parses, the item has the key as
    [id], the serialized URL as [src] and the type [file]; and when the URL does
    not contain the marker and the preview is not the video placeholder, the
    preview is the same URL as [src]. *)
Theorem S3ToTina_fixed_fields source config file url :
  URL_new (("https://" +:+ cdn_base_url config +:+ "/") +:+ S3.Key file) = Normal url ->
  exists item,
    S3ToTina URL_new source config file = Normal item
    /\ Media.id item = S3.Key file
    /\ Media.src item = href url
    /\ Media.type item = "file"
    /\ (~ occurs marker (href url) ->
        source = handlers_ts \/ ~ (exists stem, S3.Key file = stem +:+ ".mp4") ->
        Media.previewSrc item = Media.src item).
Proof.
  intros Hurl. unfold S3ToTina. rewrite Hurl. simpl.
  eexists. split; [done |]. repeat split. simpl.
  intros Hmarker Hcase. destruct source.
  - by apply transformS3Image_absent.
  - destruct (endsWith ".mp4" (S3.Key file)) eqn:E.
    + destruct Hcase as [? | Hcase]; [done |]. destruct Hcase. by apply endsWith_spec.
    + by apply transformS3Image_absent.
Qed.

Lemma S3ToTina_id_and_type source config file item :
  S3ToTina URL_new source config file = Normal item ->
  Media.id item = S3.Key file /\ Media.type item = "file".
Proof.
  unfold S3ToTina. destruct (URL_new _) as [url|e]; simpl; [| done].
  by intros [= <-].
Qed.

(** X14. When the projection of a listing succeeds, there is one item per
    object, in the order of the listing, each with the key of its object as
    [id] and with the type [file]: no folder is ever among them. *)
Theorem map_S3ToTina_keeps_keys_in_order source config contents items :
  map_S3ToTina URL_new source config contents = Normal items ->
  Media.id <$> items = S3.Key <$> contents
  /\ length items = length contents
  /\ Forall (fun item => Media.type item = "file") items.
Proof.
  revert items; induction contents as [|file contents IH]; intros items; simpl.
  - by intros [= <-].
  - destruct (S3ToTina URL_new source config file) as [item|e] eqn:Hitem;
      simpl; [| done].
    destruct (map_S3ToTina URL_new source config contents) as [rest|e];
      simpl; [| done].
    intros [= <-]. destruct (IH rest eq_refl) as (Hids & Hlen & Htypes).
    destruct (S3ToTina_id_and_type _ _ _ _ Hitem) as [Hid Htype].
    rewrite !fmap_cons, Hids, Hid. cbn [length]. rewrite Hlen.
    repeat split. by constructor.
Qed.

(** X15. The projection of a listing throws what the first failing object
    throws: the objects behind it are not looked at, and the items before it
    are lost. *)
Theorem map_S3ToTina_first_failure source config before file after items e :
  map_S3ToTina URL_new source config before = Normal items ->
  S3ToTina URL_new source config file = Throw e ->
  map_S3ToTina URL_new source config (before ++ file :: after) = Throw e.
Proof.
  revert items; induction before as [|first before IH]; intros items; simpl.
  - intros _ ->. done.
  - destruct (S3ToTina URL_new source config first) as [item|e']; simpl; [| done].
    destruct (map_S3ToTina URL_new source config before) as [rest|e'] eqn:Hrest;
      simpl; [| done].
    intros _ Hfile. by rewrite (IH rest).
Qed.

End ProjectionFacts.

(** X18. The transform never drops or changes a character of the URL: its
    result is the URL itself, or the URL with the token and a ["/"] inserted
    right behind the first occurrence of the marker. *)
Theorem transformS3Image_identity_or_insertion (u t : string) :
  transformS3Image u t = u
  \/ exists a b,
       u = a +:+ marker +:+ b
       /\ (forall i, occursAt marker i u -> (String.length a <= i)%nat)
       /\ transformS3Image u t = a +:+ marker +:+ t +:+ "/" +:+ b.
Proof.
  assert (0 < String.length marker)%nat as Hpos by (rewrite marker_length; lia).
  unfold transformS3Image. rewrite (split_unfold marker Hpos u).
  destruct (indexOf marker u) as [j|] eqn:Ej; [| by left].
  rewrite (split_unfold marker Hpos (drop _ u)).
  destruct (indexOf marker (drop _ u)) as [k|] eqn:Ek.
  - left. pose proof (split_rounds_length marker Hpos
                        (String.length (drop (k + String.length marker)
                                          (drop (j + String.length marker) u)))
                        (drop (k + String.length marker)
                           (drop (j + String.length marker) u))) as Hlen.
    unfold split. revert Hlen.
    destruct (split_rounds _ _ _); simpl; [lia | done].
  - right. destruct (indexOf_Some _ _ _ Ej) as [(a & b & Hu & Ha) Hmin].
    exists a, b. split; [done |]. split; [by rewrite Ha |].
    subst u j. by rewrite take_app, drop_add, !drop_app.
Qed.

(** X19. What the error normalization returns is never [undefined] or [null]:
    it is truthy, or it is the empty string that was thrown itself.  The body
    [{e: message}] of a failed listing therefore always carries its member. *)
Theorem findErrorMessage_result_is_defined (e r : JsValue) :
  findErrorMessage e = Normal r ->
  (ToBoolean r = true \/ (e = JsString "" /\ r = e))
  /\ exists j, JSON_stringify (JsObject [("e", r)]) = Some (JObj [("e", j)]).
Proof.
  intros H.
  assert (ToBoolean r = true \/ (e = JsString "" /\ r = e)) as Hr.
  { unfold findErrorMessage in H.
    destruct e as [| |b|n|s|items|props]; simpl in H; try done;
      try (injection H as <-; by left).
    - injection H as <-. destruct s; [by right | by left].
    - destruct (ToBoolean (default JsUndefined (assoc "message" props))) eqn:Hm;
        simpl in H; [injection H as <-; by left |].
      destruct (ToBoolean (default JsUndefined (assoc "error" props))) eqn:Herr;
        simpl in H; [| injection H as <-; by left].
      destruct (default JsUndefined (assoc "error" props)) as [| |?|?|?|?|props'];
        simpl in H; try done; try (injection H as <-; by left).
      destruct (ToBoolean (default JsUndefined (assoc "message" props'))) eqn:Hem;
        simpl in H; injection H as <-; by left. }
  split; [done |].
  destruct Hr as [Hr | [-> ->]]; [| by eexists].
  destruct r; simpl in *; try done; by eexists.
Qed.

(** ** More worked examples *)

Lemma unsupported_method_witness :
  let client := Scenario.listing (Normal Example.empty_listing) in
  let w := handle client plain_URL handlers_ts (Example.config true)
             (Example.request "PUT" ∅) in
  (exists message,
     outcome client plain_URL handlers_ts (Example.config true)
       (Example.request "PUT" ∅) = Throw (TypeError message))
  /\ s3_calls w = []
  /\ statusCode (res w) = 200%Z
  /\ sent (res w) = None.
Proof.
  apply (unsupported_method_rejects_without_a_response
           (Scenario.listing (Normal Example.empty_listing)) plain_URL
           handlers_ts (Example.config true) (Example.request "PUT" ∅));
    [reflexivity | discriminate..].
Defined.


Lemma early_rejections_witness :
  createMediaHandler (Scenario.uploading Example.ok) plain_URL handlers_ts
    Scenario.session_lookup_fails (Example.request "GET" ∅) initial_world
  = (Throw (JsString "session store down"), initial_world)
  /\ createMediaHandler (Scenario.uploading Example.ok) plain_URL handlers_ts
       (Example.config true) Scenario.post_multer_fails initial_world
     = (Throw Scenario.multer_error, initial_world)
  /\ exists err,
       createMediaHandler (Scenario.uploading Example.ok) plain_URL handlers_ts
         (Example.config true) (Example.request "DELETE" ∅) initial_world
       = (Throw err, initial_world).
Proof.
  split; [| split].
  - destruct (early_rejections_leave_the_response_untouched
                (Scenario.uploading Example.ok) plain_URL handlers_ts
                Scenario.session_lookup_fails (Example.request "GET" ∅)
                (JsString "session store down")) as (H & _ & _).
    apply H. reflexivity.
  - destruct (early_rejections_leave_the_response_untouched
                (Scenario.uploading Example.ok) plain_URL handlers_ts
                (Example.config true) Scenario.post_multer_fails
                Scenario.multer_error) as (_ & H & _).
    apply H; reflexivity.
  - destruct (early_rejections_leave_the_response_untouched
                (Scenario.uploading Example.ok) plain_URL handlers_ts
                (Example.config true) (Example.request "DELETE" ∅) JsNull)
      as (_ & _ & H).
    apply H; reflexivity.
Defined.

Lemma upload_success_witness :
  let w := handle (Scenario.uploading (Normal Scenario.uploaded)) plain_URL
             handlers_ts (Example.config true) (Example.post "/assets/" "cat.png") in
  statusCode (res w) = 200%Z
  /\ sent (res w) = Some (ByJson Scenario.uploaded)
  /\ console w = Scenario.progress.
Proof.
  apply (upload_success_answers_the_backend_result
           (Scenario.uploading (Normal Scenario.uploaded)) plain_URL handlers_ts
           (Example.config true) (Example.post "/assets/" "cat.png")
           "/assets/" "cat.png" "/tmp/cat.png"); reflexivity.
Defined.

Lemma upload_failure_witness :
  let w := handle (Scenario.uploading (Throw Scenario.no_such_bucket)) plain_URL
             handlers_ts (Example.config true) (Example.post "/assets/" "cat.png") in
  outcome (Scenario.uploading (Throw Scenario.no_such_bucket)) plain_URL handlers_ts
    (Example.config true) (Example.post "/assets/" "cat.png") = Normal tt
  /\ sent (res w) = Some (BySend (JsNumber 500))
  /\ statusCode (res w) = 200%Z
  /\ responseBody (res w) = None
  /\ console w = (Scenario.progress ++ [Scenario.no_such_bucket])%list.
Proof.
  apply (upload_failure_is_logged_and_sent_as_500
           (Scenario.uploading (Throw Scenario.no_such_bucket)) plain_URL handlers_ts
           (Example.config true) (Example.post "/assets/" "cat.png")
           "/assets/" "cat.png" "/tmp/cat.png"); reflexivity.
Defined.

Lemma upload_without_directory_witness :
  let w := handle (Scenario.uploading Example.ok) plain_URL handlers_ts
             (Example.config true) Scenario.post_without_directory in
  s3_calls w = []
  /\ sent (res w) = Some (BySend (JsNumber 500))
  /\ exists message, console w = [TypeError message].
Proof.
  apply (upload_without_directory_or_file_issues_no_put
           (Scenario.uploading Example.ok) plain_URL handlers_ts
           (Example.config true) Scenario.post_without_directory
           {| body_directory := None;
              file := Some {| originalname := "cat.png"; path := "/tmp/cat.png" |} |});
    [reflexivity | reflexivity | reflexivity | by left].
Defined.

Lemma list_backend_failure_witness :
  let client := Scenario.listing (Throw Scenario.no_such_bucket) in
  let w := handle client plain_URL handlers_ts (Example.config true)
             (Example.request "GET" ∅) in
  outcome client plain_URL handlers_ts (Example.config true) (Example.request "GET" ∅)
  = Normal tt
  /\ statusCode (res w) = 500%Z
  /\ sent (res w)
     = Some (ByJson (JsObject
               [("e", JsString "The specified bucket does not exist")])).
Proof.
  apply (list_backend_failure_is_normalized
           (Scenario.listing (Throw Scenario.no_such_bucket)) plain_URL handlers_ts
           (Example.config true) (Example.request "GET" ∅) Scenario.no_such_bucket
           (JsString "The specified bucket does not exist"));
    reflexivity.
Defined.

Lemma list_projection_failure_witness :
  let w := handle (Scenario.listing (Normal Example.truncated_listing)) plain_URL
             handlers_ts Scenario.misconfigured (Example.request "GET" ∅) in
  statusCode (res w) = 500%Z
  /\ sent (res w) = Some (ByJson (JsObject [("e", JsString "Invalid URL")]))
  /\ s3_calls w = [list_command Scenario.misconfigured (Example.request "GET" ∅)].
Proof.
  apply (list_projection_failure_is_500
           (Scenario.listing (Normal Example.truncated_listing)) plain_URL
           handlers_ts Scenario.misconfigured (Example.request "GET" ∅)
           Example.truncated_listing [Example.cat] (TypeError "Invalid URL")
           (JsString "Invalid URL"));
    reflexivity.
Defined.

Lemma list_nullish_failure_witness :
  let client := Scenario.listing (Throw JsNull) in
  let w := handle client plain_URL handlers_ts (Example.config true)
             (Example.request "GET" ∅) in
  (exists message,
     outcome client plain_URL handlers_ts (Example.config true)
       (Example.request "GET" ∅) = Throw (TypeError message))
  /\ statusCode (res w) = 500%Z
  /\ sent (res w) = None.
Proof.
  apply (list_nullish_failure_rejects
           (Scenario.listing (Throw JsNull)) plain_URL handlers_ts
           (Example.config true) (Example.request "GET" ∅) JsNull);
    [reflexivity | reflexivity | reflexivity | by right].
Defined.

Lemma list_forwards_the_query_witness :
  let calls q := s3_calls (handle (Scenario.listing (Normal Example.empty_listing))
                             plain_URL handlers_ts (Example.config true)
                             (Example.request "GET" q)) in
  listing_max_keys (calls ∅) = Some (JsNumber 500)
  /\ listing_marker (calls ∅) = Some JsUndefined
  /\ listing_max_keys (calls {[ "limit" := QString "20" ]}) = Some (JsString "20")
  /\ listing_marker (calls {[ "offset" := QString "assets/cat.png" ]})
     = Some (JsString "assets/cat.png")
  /\ listing_prefix (calls {[ "directory" := QArray ["a"; "b"] ]})
     = Some (JsArray [JsString "a"; JsString "b"]).
Proof.
  cbv zeta. split; [| split; [| split; [| split]]].
  - destruct (list_forwards_the_query_values
                (Scenario.listing (Normal Example.empty_listing)) plain_URL
                handlers_ts (Example.config true) (Example.request "GET" ∅)
                eq_refl eq_refl) as (_ & H & _).
    apply H. reflexivity.
  - destruct (list_forwards_the_query_values
                (Scenario.listing (Normal Example.empty_listing)) plain_URL
                handlers_ts (Example.config true) (Example.request "GET" ∅)
                eq_refl eq_refl) as (_ & _ & _ & H & _).
    apply H. reflexivity.
  - destruct (list_forwards_the_query_values
                (Scenario.listing (Normal Example.empty_listing)) plain_URL
                handlers_ts (Example.config true)
                (Example.request "GET" {[ "limit" := QString "20" ]})
                eq_refl eq_refl) as (_ & _ & H & _).
    apply H. reflexivity.
  - destruct (list_forwards_the_query_values
                (Scenario.listing (Normal Example.empty_listing)) plain_URL
                handlers_ts (Example.config true)
                (Example.request "GET" {[ "offset" := QString "assets/cat.png" ]})
                eq_refl eq_refl) as (_ & _ & _ & _ & H & _).
    apply H. reflexivity.
  - destruct (list_forwards_the_query_values
                (Scenario.listing (Normal Example.empty_listing)) plain_URL
                handlers_ts (Example.config true)
                (Example.request "GET" {[ "directory" := QArray ["a"; "b"] ]})
                eq_refl eq_refl) as (_ & _ & _ & _ & _ & H).
    apply (H ["a"; "b"]). reflexivity.
Defined.

Lemma S3ToTina_video_preview_witness :
  exists typed plain,
    S3ToTina plain_URL handlers_ts_typed (Example.config true) Scenario.intro
    = Normal typed
    /\ S3ToTina plain_URL handlers_ts (Example.config true) Scenario.intro
       = Normal plain
    /\ Media.previewSrc typed = video_placeholder
    /\ Media.previewSrc plain = "https://cdn.example.com/clips/intro.mp4".
Proof.
  destruct (S3ToTina_video_preview plain_URL (Example.config true) Scenario.intro
              Scenario.intro_url eq_refl)
    as (typed & plain & Htyped & Hplain & Hvideo & _ & Hpreview).
  exists typed, plain. split; [exact Htyped |]. split; [exact Hplain |].
  split; [apply Hvideo; by exists "clips/intro" | exact Hpreview].
Defined.

Lemma S3ToTina_fixed_fields_witness :
  exists item,
    S3ToTina plain_URL handlers_ts_typed (Example.config true) Example.cat
    = Normal item
    /\ Media.id item = "assets/cat.png"
    /\ Media.src item = "https://cdn.example.com/assets/cat.png"
    /\ Media.type item = "file"
    /\ Media.previewSrc item = Media.src item.
Proof.
  destruct (S3ToTina_fixed_fields plain_URL handlers_ts_typed (Example.config true)
              Example.cat Example.cat_url eq_refl)
    as (item & Hitem & Hid & Hsrc & Htype & Hpreview).
  exists item. repeat split; try assumption.
  apply Hpreview.
  - by apply indexOf_None.
  - right. intros H%endsWith_spec. discriminate H.
Defined.

Lemma map_S3ToTina_keeps_keys_witness :
  map_S3ToTina plain_URL handlers_ts (Example.config true)
    [Example.cat; Scenario.intro]
  = Normal [Example.cat_item; Scenario.intro_item]
  /\ Media.id <$> [Example.cat_item; Scenario.intro_item]
     = S3.Key <$> [Example.cat; Scenario.intro]
  /\ length [Example.cat_item; Scenario.intro_item]
     = length [Example.cat; Scenario.intro]
  /\ Forall (fun item => Media.type item = "file")
       [Example.cat_item; Scenario.intro_item].
Proof.
  split; [reflexivity |].
  apply (map_S3ToTina_keeps_keys_in_order plain_URL handlers_ts (Example.config true)).
  reflexivity.
Defined.

Lemma map_S3ToTina_first_failure_witness :
  map_S3ToTina plain_URL handlers_ts Scenario.misconfigured
    ([] ++ Example.cat :: [Scenario.intro])
  = Throw (TypeError "Invalid URL").
Proof.
  apply (map_S3ToTina_first_failure plain_URL handlers_ts Scenario.misconfigured
           [] Example.cat [Scenario.intro] []); reflexivity.
Defined.

Lemma delete_with_one_segment_witness :
  let w := handle Scenario.validating plain_URL handlers_ts (Example.config true)
             (Example.request "DELETE" {[ "media" := QArray ["key123"] ]}) in
  deleted_key (s3_calls w) = Some JsUndefined
  /\ statusCode (res w) = 500%Z
  /\ sent (res w) = None.
Proof.
  assert (query (Example.request "DELETE" {[ "media" := QArray ["key123"] ]})
          !! "media" = Some (QArray ["key123"])) as Hmedia by reflexivity.
  exact (delete_with_one_segment_has_no_key
           Scenario.validating plain_URL handlers_ts (Example.config true)
           (Example.request "DELETE" {[ "media" := QArray ["key123"] ]})
           ["key123"] Scenario.no_key eq_refl eq_refl Hmedia (le_n 1) eq_refl).
Defined.

Lemma delete_with_string_media_witness :
  deleted_key (s3_calls (handle (Scenario.listing (Normal Example.empty_listing))
                           plain_URL handlers_ts (Example.config true)
                           (Example.request "DELETE" {[ "media" := QString "key123" ]})))
  = Some (JsString "e").
Proof.
  assert (query (Example.request "DELETE" {[ "media" := QString "key123" ]}) !! "media"
          = Some (QString (String (Ascii.ascii_of_nat 107)
                             (String (Ascii.ascii_of_nat 101) "y123")))) as Hmedia
    by reflexivity.
  exact (delete_with_string_media_uses_its_second_character
           (Scenario.listing (Normal Example.empty_listing)) plain_URL
           handlers_ts (Example.config true)
           (Example.request "DELETE" {[ "media" := QString "key123" ]})
           _ _ _ eq_refl eq_refl Hmedia).
Defined.

Lemma findErrorMessage_result_witness :
  (ToBoolean (JsString "x") = true
   \/ (JsObject [("message", JsString "x")] = JsString "" /\
       JsString "x" = JsObject [("message", JsString "x")]))
  /\ exists j, JSON_stringify (JsObject [("e", JsString "x")]) = Some (JObj [("e", j)]).
Proof.
  apply (findErrorMessage_result_is_defined
           (JsObject [("message", JsString "x")]) (JsString "x")).
  reflexivity.
Defined.

Lemma list_success_typed_client_witness :
  let r := res (handle (Scenario.listing (Normal Example.truncated_listing)) plain_URL
                  handlers_ts_typed (Example.config true) (Example.request "GET" ∅)) in
  statusCode r = 200%Z
  /\ responseBody r ≫= json_member "items"
     = Some (JArr (Media_json <$> [Example.cat_item]))
  /\ responseBody r ≫= json_member "offset"
     = JStr <$> S3.NextMarker Example.truncated_listing.
Proof.
  apply (list_success_typed_client
           (Scenario.listing (Normal Example.truncated_listing)) plain_URL
           (Example.config true) (Example.request "GET" ∅)
           Example.truncated_listing [Example.cat_item]); reflexivity.
Defined.

Lemma list_success_handlers_ts_witness :
  let r := res (handle (Scenario.listing (Normal Scenario.two_objects)) plain_URL
                  handlers_ts (Example.config true) (Example.request "GET" ∅)) in
  statusCode r = 200%Z
  /\ responseBody r
     = Some (JObj [("items", JArr (Media_json <$> [Example.cat_item;
                                                   Scenario.intro_item]))]).
Proof.
  apply (list_success_handlers_ts
           (Scenario.listing (Normal Scenario.two_objects)) plain_URL
           (Example.config true) (Example.request "GET" ∅)
           Scenario.two_objects [Example.cat_item; Scenario.intro_item]); reflexivity.
Defined.
